(** * Amount extraction of the payment-tracking bot

    Shallow embedding of [currency_extractor.extract_amounts] (the module
    the running bot imports through [bot_handlers.py]),
    [currency_detector.CurrencyDetector.extract_amounts] (the module
    imported by [handlers.py]) and of [PaymentDatabase.get_totals].

    Python strings are sequences of Unicode code points; a code point is
    an [N].  [re.findall] with [re.IGNORECASE] is modelled by a
    backtracking matcher written in continuation-passing style, which
    tries alternatives in the order of Python's [sre] engine (greedy
    quantifiers first, then fewer repetitions).  Python floats are
    modelled as exact rationals [Q]. *)

From Stdlib Require Import String Ascii NArith ZArith QArith Bool Lia List Sorted Permutation.
Import ListNotations.

Open Scope N_scope.

Definition char := N.
Definition text := list char.

(** ASCII source text as a list of code points. *)
Fixpoint of_string (s : string) : text :=
  match s with
  | EmptyString => []
  | String a s' => N_of_ascii a :: of_string s'
  end.

(** ** Character classes *)

(** Code points of the digit zero of every run of Unicode decimal digits
    (general category Nd).  Python's [\d] on [str] patterns and [float]
    both accept exactly these digits. *)
Definition nd_zeros : list N :=
  [0x30; 0x660; 0x6F0; 0x7C0; 0x966; 0x9E6; 0xA66; 0xAE6; 0xB66; 0xBE6;
   0xC66; 0xCE6; 0xD66; 0xDE6; 0xE50; 0xED0; 0xF20; 0x1040; 0x1090;
   0x17E0; 0x1810; 0x1946; 0x19D0; 0x1A80; 0x1A90; 0x1B50; 0x1BB0;
   0x1C40; 0x1C50; 0xA620; 0xA8D0; 0xA900; 0xA9D0; 0xA9F0; 0xAA50;
   0xABF0; 0xFF10; 0x104A0; 0x10D30; 0x11066; 0x110F0; 0x11136;
   0x111D0; 0x112F0; 0x11450; 0x114D0; 0x11650; 0x116C0; 0x11730;
   0x118E0; 0x11950; 0x11C50; 0x11D50; 0x11DA0; 0x11F50; 0x16A60;
   0x16AC0; 0x16B50; 0x1D7CE; 0x1D7D8; 0x1D7E2; 0x1D7EC; 0x1D7F6;
   0x1E140; 0x1E2F0; 0x1E4F0; 0x1E950; 0x1FBF0].

(** [unicodedata.decimal]: the value of a decimal digit. *)
Fixpoint decimal_in (zs : list N) (c : char) : option N :=
  match zs with
  | [] => None
  | z :: zs' => if (z <=? c) && (c <? z + 10) then Some (c - z)
                else decimal_in zs' c
  end.

Definition decimal_value (c : char) : option N := decimal_in nd_zeros c.

Definition is_decimal (c : char) : bool :=
  match decimal_value c with Some _ => true | None => false end.

(** [Py_UNICODE_ISSPACE]: the class [\s] and the characters [str.strip]
    removes. *)
Definition is_space (c : char) : bool :=
  ((0x09 <=? c) && (c <=? 0x0D)) || ((0x1C <=? c) && (c <=? 0x20))
  || (c =? 0x85) || (c =? 0xA0) || (c =? 0x1680)
  || ((0x2000 <=? c) && (c <=? 0x200A)) || (c =? 0x2028) || (c =? 0x2029)
  || (c =? 0x202F) || (c =? 0x205F) || (c =? 0x3000).

(** Simple lower-case mapping used by [sre] under [re.IGNORECASE]:
    ASCII and Latin-1 capitals, LATIN CAPITAL Y WITH DIAERESIS,
    CAPITAL I WITH DOT ABOVE and KELVIN SIGN. *)
Definition sre_lower (c : char) : char :=
  if (65 <=? c) && (c <=? 90) then c + 32
  else if (0xC0 <=? c) && (c <=? 0xDE) && negb (c =? 0xD7) then c + 32
  else if c =? 0x178 then 0xFF
  else if c =? 0x130 then 0x69
  else if c =? 0x212A then 0x6B
  else c.

(** [sre] also identifies DOTLESS I with [i] and LONG S with [s]. *)
Definition sre_fold (c : char) : char :=
  let l := sre_lower c in
  if l =? 0x131 then 0x69 else if l =? 0x17F then 0x73 else l.

(** A pattern literal [p] matches a text character [c] under
    [re.IGNORECASE].  This is exact for every literal occurring in the
    patterns below (ASCII, [á], [Ÿ], [›], [៛]). *)
Definition char_eq_ci (p c : char) : bool := sre_fold p =? sre_fold c.

(** ** Regular expressions and the backtracking matcher *)

Inductive regex : Type :=
| Eps
| Lit (c : char)
| Digit
| Space
| Seq (r1 r2 : regex)
| Opt (r : regex)
| Star (r : regex)
| Group (r : regex).

(** [abc]: a sequence of literals. *)
Fixpoint lits (m : text) : regex :=
  match m with
  | [] => Eps
  | c :: m' => Seq (Lit c) (lits m')
  end.

Definition str (s : string) : regex := lits (of_string s).

Fixpoint seqs (rs : list regex) : regex :=
  match rs with
  | [] => Eps
  | r :: rs' => Seq r (seqs rs')
  end.

(** [r+] *)
Definition Plus (r : regex) : regex := Seq r (Star r).
(** [r{n}] *)
Fixpoint Rep (n : nat) (r : regex) : regex :=
  match n with O => Eps | S n' => Seq r (Rep n' r) end.
(** [r{1,3}], greedy: [r(?:r(?:r)?)?] *)
Definition Rep13 (r : regex) : regex := Seq r (Opt (Seq r (Opt r))).

(** A continuation receives the rest of the text and the current
    capture of group 1. *)
Definition cont (A : Type) := text -> option text -> option A.

Section Matcher.
Context {A : Type}.

(** Greedy repetition: try one more iteration of the body (which must
    consume input), and fall back to stopping here. *)
Fixpoint star_loop (fuel : nat)
    (body : text -> option text -> cont A -> option A)
    (s : text) (cap : option text) (k : cont A) : option A :=
  match fuel with
  | O => k s cap
  | S f =>
      match body s cap (fun s' cap' =>
              if (length s' <? length s)%nat then star_loop f body s' cap' k
              else None) with
      | Some x => Some x
      | None => k s cap
      end
  end.

Fixpoint mt (r : regex) (s : text) (cap : option text) (k : cont A)
    : option A :=
  match r with
  | Eps => k s cap
  | Lit c =>
      match s with
      | x :: s' => if char_eq_ci c x then k s' cap else None
      | [] => None
      end
  | Digit =>
      match s with
      | x :: s' => if is_decimal x then k s' cap else None
      | [] => None
      end
  | Space =>
      match s with
      | x :: s' => if is_space x then k s' cap else None
      | [] => None
      end
  | Seq r1 r2 => mt r1 s cap (fun s' cap' => mt r2 s' cap' k)
  | Opt r1 =>
      match mt r1 s cap k with
      | Some x => Some x
      | None => k s cap
      end
  | Star r1 => star_loop (S (length s)) (mt r1) s cap k
  | Group r1 =>
      mt r1 s cap (fun s' _ => k s' (Some (firstn (length s - length s') s)))
  end.

End Matcher.

(** [pattern.match(s)]: the rest of the text and group 1. *)
Definition match_at (r : regex) (s : text) : option (text * option text) :=
  mt r s None (fun s' cap => Some (s', cap)).

Definition group1 (cap : option text) : text :=
  match cap with Some w => w | None => [] end.

(** [re.findall(pattern, text, re.IGNORECASE)] for a pattern with one
    group: scan left to right, resuming after each match. *)
Fixpoint findall_from (fuel : nat) (r : regex) (s : text) : list text :=
  match fuel with
  | O => []
  | S f =>
      match match_at r s with
      | Some (s', cap) =>
          group1 cap ::
            (if (length s' <? length s)%nat then findall_from f r s'
             else match s with [] => [] | _ :: t => findall_from f r t end)
      | None => match s with [] => [] | _ :: t => findall_from f r t end
      end
  end.

Definition findall (r : regex) (s : text) : list text :=
  findall_from (S (length s)) r s.

(** ** Strings and numbers *)

(** [str.strip()] *)
Fixpoint lstrip (t : text) : text :=
  match t with
  | c :: t' => if is_space c then lstrip t' else t
  | [] => []
  end.

Definition strip (t : text) : text := rev (lstrip (rev (lstrip t))).

(** [s.replace(',', '')] *)
Definition remove_commas (w : text) : text :=
  filter (fun c => negb (c =? 44)) w.

Fixpoint take_digits (w : text) : list N * text :=
  match w with
  | c :: w' =>
      match decimal_value c with
      | Some d => let (ds, r) := take_digits w' in (d :: ds, r)
      | None => ([], w)
      end
  | [] => ([], [])
  end.

Definition digits_to_Z (ds : list N) : Z :=
  fold_left (fun acc d => (acc * 10 + Z.of_N d)%Z) ds 0%Z.

(** [float(w)] on the strings [w] a capture can produce after comma
    removal: [digits], [digits.digits], [.digits]; anything else raises
    [ValueError] ([None]).  Signs, exponents, underscores, [inf]/[nan]
    and surrounding blanks are not modelled: no capture contains them.
    The value is the exact decimal one; [PyFloat.py_float] below rounds it
    to the binary64 value [float()] returns. *)
Definition parse_float (w : text) : option Q :=
  let (ip, rest) := take_digits w in
  match rest with
  | [] => match ip with
          | [] => None
          | _ => Some (inject_Z (digits_to_Z ip))
          end
  | c :: rest' =>
      if c =? 46 then
        let (fp, rest2) := take_digits rest' in
        match rest2, ip, fp with
        | _ :: _, _, _ => None
        | [], [], [] => None
        | [], _, _ =>
            Some (Qred (Qmake (digits_to_Z (ip ++ fp))
                              (Z.to_pos (10 ^ Z.of_nat (length fp)))))
        end
      else None
  end.

Definition Qltb (x y : Q) : bool := negb (Qle_bool y x).

(** Pattern fragments shared by both modules. *)

(** [\d{1,3}(?:,\d{3})*] *)
Definition grouped_int : regex := Seq (Rep13 Digit) (Star (Seq (str ",") (Rep 3 Digit))).
(** [(?:\.\d{2})?] *)
Definition cents : regex := Opt (Seq (str ".") (Rep 2 Digit)).
(** [\d{1,3}(?:,\d{3})*(?:\.\d{2})?] *)
Definition grouped_num : regex := Seq grouped_int cents.
(** [\d+(?:\.\d{2})?] *)
Definition plain_num : regex := Seq (Plus Digit) cents.
(** [\d+] *)
Definition plain_int : regex := Plus Digit.
(** [dollars?] *)
Definition dollars : regex := Seq (str "dollar") (Opt (str "s")).

(** ** [currency_extractor.extract_amounts] *)
Module Extractor.

(** The Riel sign as it stands in [currency_extractor.py]: the three
    characters [á] (U+00E1), [Ÿ] (U+0178), [›] (U+203A), i.e. the UTF-8
    bytes of [៛] read as Windows-1252. *)
Definition riel_sign : regex := lits [0xE1; 0x178; 0x203A].

(** [usd_patterns], "Standard formats". *)
Definition standard_usd_patterns : list regex :=
  [ seqs [str "$"; Group grouped_num];     (* \$(\d{1,3}(?:,\d{3})*(?:\.\d{2})?) *)
    seqs [Group grouped_num; str "$"];     (* (\d{1,3}(?:,\d{3})*(?:\.\d{2})?)\$ *)
    seqs [str "$"; Group plain_num];       (* \$(\d+(?:\.\d{2})?) *)
    seqs [Group plain_num; str "$"] ].     (* (\d+(?:\.\d{2})?)\$ *)

(** [usd_patterns], "ABA transaction formats". *)
Definition aba_usd_patterns : list regex :=
  [ seqs [str "$"; Group plain_num; Plus Space; str "paid"; Plus Space; str "by"];
    seqs [str "paid"; Plus Space; str "$"; Group plain_num];
    seqs [str "Received"; Plus Space; str "$"; Group plain_num];
    seqs [str "Transfer"; Plus Space; str "$"; Group plain_num] ].

(** [usd_patterns], "Word-based patterns". *)
Definition word_usd_patterns : list regex :=
  [ seqs [Group plain_num; Plus Space; str "USD"];
    seqs [Group plain_num; Plus Space; dollars];
    seqs [str "USD"; Plus Space; Group plain_num];
    seqs [dollars; Plus Space; Group plain_num] ].

Definition usd_patterns : list regex :=
  standard_usd_patterns ++ aba_usd_patterns ++ word_usd_patterns.

Definition riel_patterns : list regex :=
  [ seqs [riel_sign; Group grouped_int];
    seqs [Group grouped_int; riel_sign];
    seqs [riel_sign; Group plain_int];
    seqs [Group plain_int; riel_sign];
    seqs [Group grouped_int; Plus Space; str "riel"];
    seqs [Group grouped_int; Plus Space; str "KHR"];
    seqs [str "riel"; Plus Space; Group grouped_int];
    seqs [str "KHR"; Plus Space; Group grouped_int];
    seqs [str "Received"; Plus Space; Group grouped_int; Plus Space; str "KHR"] ].

(** Body of the inner loop:
    [amount = float(match.replace(',', ''))];
    [if amount > usd_amount: usd_amount = amount];
    [except ValueError: continue]. *)
Definition take_larger (acc : Q) (w : text) : Q :=
  match parse_float (remove_commas w) with
  | Some a => if Qltb acc a then a else acc
  | None => acc
  end.

(** [for pattern in patterns: for match in re.findall(...): ...] *)
Definition scan (pats : list regex) (t : text) (acc : Q) : Q :=
  fold_left (fun acc p => fold_left take_larger (findall p t) acc) pats acc.

Definition extract_amounts (text0 : text) : Q * Q :=
  let t := strip text0 in
  (scan usd_patterns t 0%Q, scan riel_patterns t 0%Q).

End Extractor.

(** ** [currency_detector.CurrencyDetector.extract_amounts] *)
Module Detector.

(** [៛] (U+17DB) *)
Definition riel_sign : regex := lits [0x17DB].

Definition usd_patterns : list regex :=
  [ seqs [str "$"; Group grouped_num];
    seqs [Group grouped_num; str "$"];
    seqs [str "$"; Group plain_num];
    seqs [Group plain_num; str "$"];
    seqs [Group grouped_num; Star Space; str "USD"];
    seqs [Group grouped_num; Star Space; dollars];
    seqs [str "USD"; Star Space; Group grouped_num];
    seqs [dollars; Star Space; Group grouped_num];
    seqs [str "paid"; Star Space; str "$"; Group grouped_num];
    seqs [str "received"; Star Space; str "$"; Group grouped_num];
    seqs [str "transfer"; Star Space; str "$"; Group grouped_num];
    seqs [str "$"; Group grouped_num; Star Space; str "paid"] ].

Definition riel_patterns : list regex :=
  [ seqs [riel_sign; Group grouped_int];
    seqs [Group grouped_int; riel_sign];
    seqs [riel_sign; Group plain_int];
    seqs [Group plain_int; riel_sign];
    seqs [Group grouped_int; Star Space; str "riel"];
    seqs [Group grouped_int; Star Space; str "KHR"];
    seqs [str "riel"; Star Space; Group grouped_int];
    seqs [str "KHR"; Star Space; Group grouped_int];
    seqs [str "paid"; Star Space; riel_sign; Group grouped_int];
    seqs [str "received"; Star Space; riel_sign; Group grouped_int];
    seqs [riel_sign; Group grouped_int; Star Space; str "paid"] ].

(** [_extract_usd] / [_extract_riel]: every parsed match that is
    positive, in pattern order. *)
Definition collect (pats : list regex) (t : text) : list Q :=
  flat_map (fun p =>
    flat_map (fun w =>
      match parse_float (remove_commas w) with
      | Some a => if Qltb 0%Q a then [a] else []
      | None => []
      end) (findall p t)) pats.

(** Python's [max] on a non-empty list: the first maximal element. *)
Definition py_max (x : Q) (xs : list Q) : Q :=
  fold_left (fun m a => if Qltb m a then a else m) xs x.

Definition max_or_zero (l : list Q) : Q :=
  match l with [] => 0%Q | x :: xs => py_max x xs end.

(** A [CurrencyDetector] object: its two pattern lists. *)
Record currency_detector := {
  usd_patterns_of : list regex;
  riel_patterns_of : list regex }.

(** [CurrencyDetector.extract_amounts(self, text)] *)
Definition extract_amounts_self (self : currency_detector) (text0 : text) : Q * Q :=
  match text0 with
  | [] => (0%Q, 0%Q)
  | _ => let t := strip text0 in
         (max_or_zero (collect (usd_patterns_of self) t),
          max_or_zero (collect (riel_patterns_of self) t))
  end.

(** [detector = CurrencyDetector()] *)
Definition detector : currency_detector :=
  {| usd_patterns_of := usd_patterns; riel_patterns_of := riel_patterns |}.

(** The module-level [extract_amounts(text)]. *)
Definition extract_amounts (text0 : text) : Q * Q :=
  extract_amounts_self detector text0.

End Detector.

(** ** Python floats

    [parse_float] gives the exact decimal value of a capture; [float()]
    returns that value correctly rounded to binary64 (round half to even),
    and [inf] when it reaches [2^1024 - 2^970].  The two extractors below
    are [extract_amounts] of the two modules on these floats. *)
Module PyFloat.

(** A float as [extract_amounts] can see it: a finite value or [inf]
    (the captures carry no sign, so neither [-inf] nor [nan] arises). *)
Inductive t : Type :=
| Fin (q : Q)
| Inf.

(** [a > b] *)
Definition gtb (a b : t) : bool :=
  match a, b with
  | Fin x, Fin y => Qltb y x
  | Inf, Fin _ => true
  | _, Inf => false
  end.

(** [n / d] rounded half to even to an integer, for [d > 0]. *)
Definition round_half_even (n d : Z) : Z :=
  let m := (n / d)%Z in
  let r := (n mod d)%Z in
  if (d <? 2 * r)%Z || ((2 * r =? d)%Z && Z.odd m) then (m + 1)%Z else m.

(** For [n / d > 0], the exponent [e] of the last place of its binary64
    neighbours: [2^52 <= n / d / 2^e < 2^53], but never below the
    subnormal exponent [-1074]. *)
Definition ulp_exponent (n d : Z) : Z :=
  let e0 := (Z.log2 n - Z.log2 d - 52)%Z in
  let e := if (n * 2 ^ Z.max 0 (- e0) <? 2 ^ 52 * (d * 2 ^ Z.max 0 e0))%Z
           then (e0 - 1)%Z else e0 in
  Z.max e (-1074).

(** The float nearest to [q >= 0]. *)
Definition of_Q (q : Q) : t :=
  let n := Qnum q in
  let d := Zpos (Qden q) in
  if (n <=? 0)%Z then Fin 0 else
  let e := ulp_exponent n d in
  let m := round_half_even (n * 2 ^ Z.max 0 (- e)) (d * 2 ^ Z.max 0 e) in
  if (0 <=? e)%Z then
    (if (2 ^ 1024 <=? m * 2 ^ e)%Z then Inf else Fin (inject_Z (m * 2 ^ e)))
  else Fin (Qred (Qmake m (Z.to_pos (2 ^ (- e))))).

(** [float(w)] *)
Definition py_float (w : text) : option t := option_map of_Q (parse_float w).

End PyFloat.

(** [currency_extractor.extract_amounts] on floats. *)
Module FloatExtractor.
Import PyFloat.

Definition take_larger (acc : PyFloat.t) (w : text) : PyFloat.t :=
  match py_float (remove_commas w) with
  | Some a => if gtb a acc then a else acc
  | None => acc
  end.

Definition scan (pats : list regex) (t : text) (acc : PyFloat.t) : PyFloat.t :=
  fold_left (fun acc p => fold_left take_larger (findall p t) acc) pats acc.

Definition extract_amounts (text0 : text) : PyFloat.t * PyFloat.t :=
  let t := strip text0 in
  (scan Extractor.usd_patterns t (Fin 0), scan Extractor.riel_patterns t (Fin 0)).

End FloatExtractor.

(** [currency_detector.extract_amounts] on floats. *)
Module FloatDetector.
Import PyFloat.

Definition collect (pats : list regex) (t : text) : list PyFloat.t :=
  flat_map (fun p =>
    flat_map (fun w =>
      match py_float (remove_commas w) with
      | Some a => if gtb a (Fin 0) then [a] else []
      | None => []
      end) (findall p t)) pats.

Definition py_max (x : PyFloat.t) (xs : list PyFloat.t) : PyFloat.t :=
  fold_left (fun m a => if gtb a m then a else m) xs x.

Definition max_or_zero (l : list PyFloat.t) : PyFloat.t :=
  match l with [] => Fin 0 | x :: xs => py_max x xs end.

Definition extract_amounts (text0 : text) : PyFloat.t * PyFloat.t :=
  match text0 with
  | [] => (Fin 0, Fin 0)
  | _ => let t := strip text0 in
         (max_or_zero (collect Detector.usd_patterns t),
          max_or_zero (collect Detector.riel_patterns t))
  end.

End FloatDetector.

(** ** Payment ledger ([database.py]) *)
Module Ledger.

Open Scope Z_scope.

(** A row of the [payments] table; [payment_date] is a calendar date,
    counted in days from 1970-01-01. *)
Record payment := {
  chat_id : Z;
  usd_amount : Q;
  riel_amount : Q;
  payment_date : Z }.

(** [CAMBODIA_TZ = pytz.timezone('Asia/Phnom_Penh')]: UTC+7, no DST. *)
Definition cambodia_offset : Z := 7 * 3600.

(** [datetime.now(CAMBODIA_TZ).date()], for the current instant given as
    seconds since the Unix epoch (UTC). *)
Definition get_cambodia_date (now_utc : Z) : Z :=
  (now_utc + cambodia_offset) / 86400.

(** Proleptic Gregorian calendar: days from 1970-01-01 to [y-m-d]. *)
Definition days_from_civil (y m d : Z) : Z :=
  let y' := if m <=? 2 then y - 1 else y in
  let era := y' / 400 in
  let yoe := y' - era * 400 in
  let mp := (m + 9) mod 12 in
  let doy := (153 * mp + 2) / 5 + d - 1 in
  let doe := yoe * 365 + yoe / 4 - yoe / 100 + doy in
  era * 146097 + doe - 719468.

(** The [(year, month, day)] of a day number. *)
Definition civil_from_days (z : Z) : Z * Z * Z :=
  let z' := z + 719468 in
  let era := z' / 146097 in
  let doe := z' - era * 146097 in
  let yoe := (doe - doe / 1460 + doe / 36524 - doe / 146096) / 365 in
  let doy := doe - (365 * yoe + yoe / 4 - yoe / 100) in
  let mp := (5 * doy + 2) / 153 in
  let d := doy - (153 * mp + 2) / 5 + 1 in
  let m := if mp <? 10 then mp + 3 else mp - 9 in
  let y := yoe + era * 400 + (if m <=? 2 then 1 else 0) in
  (y, m, d).

(** [date.replace(day=1)] *)
Definition first_of_month (z : Z) : Z :=
  let '(y, m, _) := civil_from_days z in days_from_civil y m 1.

(** [date.replace(month=1, day=1)] *)
Definition first_of_year (z : Z) : Z :=
  let '(y, _, _) := civil_from_days z in days_from_civil y 1 1.

Inductive period := Today | Week | Month | Year | Other (name : string).

(** [SELECT COALESCE(SUM(usd_amount), 0), COALESCE(SUM(riel_amount), 0)
     FROM payments WHERE chat_id = %s AND <cond>] *)
Definition sum_where (db : list payment) (chat : Z) (cond : Z -> bool) : Q * Q :=
  fold_left (fun acc p =>
      if (chat_id p =? chat) && cond (payment_date p)
      then (fst acc + usd_amount p, snd acc + riel_amount p)%Q
      else acc) db (0%Q, 0%Q).

(** [PaymentDatabase.get_totals(chat_id, period)].  For a period outside
    the four branches no query is executed, [cursor.fetchone()] raises and
    the handler returns [(0.0, 0.0)]. *)
Definition get_totals (db : list payment) (chat : Z) (p : period) (now_utc : Z)
    : Q * Q :=
  let cambodia_date := get_cambodia_date now_utc in
  match p with
  | Today => sum_where db chat (fun d => d =? cambodia_date)
  | Week =>
      let week_start := cambodia_date - 7 in
      sum_where db chat (fun d => week_start <=? d)
  | Month =>
      let month_start := first_of_month cambodia_date in
      sum_where db chat (fun d => month_start <=? d)
  | Year =>
      let year_start := first_of_year cambodia_date in
      sum_where db chat (fun d => year_start <=? d)
  | Other _ => (0%Q, 0%Q)
  end.

(** Reading of "the start of the current week" (Monday, ISO 8601; day 0,
    1970-01-01, is a Thursday), used to compare with [get_totals]. *)
Definition start_of_week (z : Z) : Z := z - (z + 3) mod 7.

Definition week_sum_by_spec (db : list payment) (chat : Z) (now_utc : Z) : Q * Q :=
  let today := get_cambodia_date now_utc in
  sum_where db chat (fun d => start_of_week today <=? d).

(** A row whose two amounts are non-negative. *)
Definition nonneg_payment (p : payment) : Prop :=
  (0 <= usd_amount p)%Q /\ (0 <= riel_amount p)%Q.

(** Ranges of the intermediate quantities of [civil_from_days]: the year
    of the era and the day of the year for a day of the era [doe], the
    month and the day for a day of the year [doy]. *)
Definition doe_ok (doe : Z) : bool :=
  let yoe := (doe - doe / 1460 + doe / 36524 - doe / 146096) / 365 in
  let doy := doe - (365 * yoe + yoe / 4 - yoe / 100) in
  (0 <=? yoe) && (yoe <? 400) && (0 <=? doy) && (doy <=? 365).

Definition doy_ok (doy : Z) : bool :=
  let mp := (5 * doy + 2) / 153 in
  (0 <=? mp) && (mp <=? 11) && (1 <=? doy - (153 * mp + 2) / 5 + 1)
  && (doy - (153 * mp + 2) / 5 + 1 <=? 31).

Close Scope Z_scope.

End Ledger.

(** ** Effects of a call: logging, and the global [detector] object *)
Module Effects.

(** Log records written by the two modules. *)
Inductive log_entry : Type :=
| LogUsd (amount : Q)                  (* "Detected ABA USD transaction: ..." *)
| LogRiel (amount : Q)                 (* "Detected Riel amount: ..." *)
| LogExtracted (t : text) (usd riel : Q)   (* "Extracted from ..." *)
| LogDebugUsd (amounts : list Q) (usd : Q)  (* "USD amounts found: ..." *)
| LogDebugRiel (amounts : list Q) (riel : Q).

(** The process state a call can see: the module-level [detector]
    instance and the log written so far. *)
Record world := {
  detector_obj : Detector.currency_detector;
  log : list log_entry }.

Definition M (X : Type) : Type := world -> X * world.

Definition ret {X : Type} (x : X) : M X := fun w => (x, w).

Definition bind {X Y : Type} (m : M X) (k : X -> M Y) : M Y :=
  fun w => let (x, w') := m w in k x w'.

Notation "x <- m ;; k" := (bind m (fun x => k))
  (at level 61, m at next level, right associativity).

(** [logger.info(...)] / [logger.debug(...)] *)
Definition tell (e : log_entry) : M unit :=
  fun w => (tt, {| detector_obj := detector_obj w; log := log w ++ [e] |}).

(** Reading the global [detector]. *)
Definition get_self : M Detector.currency_detector := fun w => (detector_obj w, w).

Fixpoint foldM {X Y : Type} (f : Y -> X -> M Y) (l : list X) (y : Y) : M Y :=
  match l with
  | [] => ret y
  | x :: l' => bind (f y x) (foldM f l')
  end.

(** [currency_extractor.extract_amounts] with its logging. *)
Definition take_larger_m (mk : Q -> log_entry) (acc : Q) (w : text) : M Q :=
  match parse_float (remove_commas w) with
  | Some a => if Qltb acc a then _ <- tell (mk a) ;; ret a else ret acc
  | None => ret acc
  end.

Definition scan_m (mk : Q -> log_entry) (pats : list regex) (t : text) (acc : Q) : M Q :=
  foldM (fun acc p => foldM (take_larger_m mk) (findall p t) acc) pats acc.

Definition extractor_call (text0 : text) : M (Q * Q) :=
  let t := strip text0 in
  u <- scan_m LogUsd Extractor.usd_patterns t 0%Q ;;
  r <- scan_m LogRiel Extractor.riel_patterns t 0%Q ;;
  _ <- (if Qltb 0 u || Qltb 0 r then tell (LogExtracted t u r) else ret tt) ;;
  ret (u, r).

(** [currency_detector.extract_amounts(text)], i.e.
    [detector.extract_amounts(text)] with its debug logging. *)
Definition detector_call (text0 : text) : M (Q * Q) :=
  self <- get_self ;;
  match text0 with
  | [] => ret (0%Q, 0%Q)
  | _ =>
      let t := strip text0 in
      let us := Detector.collect (Detector.usd_patterns_of self) t in
      u <- (match us with
            | [] => ret 0%Q
            | _ => let u := Detector.max_or_zero us in
                   _ <- tell (LogDebugUsd us u) ;; ret u
            end) ;;
      let rs := Detector.collect (Detector.riel_patterns_of self) t in
      r <- (match rs with
            | [] => ret 0%Q
            | _ => let r := Detector.max_or_zero rs in
                   _ <- tell (LogDebugRiel rs r) ;; ret r
            end) ;;
      ret (u, r)
  end.

(** A computation that reads at most the detector object, leaves it as it
    is, and whose value is [f] of it. *)
Definition reads_only {X : Type} (m : M X) (f : Detector.currency_detector -> X) : Prop :=
  forall w, fst (m w) = f (detector_obj w) /\ detector_obj (snd (m w)) = detector_obj w.

End Effects.

(** ** Bounded checks *)

(** [check_from n x f]: [f] holds at [x], [x + 1], ..., [x + n - 1]. *)
Fixpoint check_from (n : nat) (x : Z) (f : Z -> bool) : bool :=
  match n with
  | O => true
  | S k => f x && check_from k (x + 1)%Z f
  end.

(** Python's [==] on [str]. *)
Fixpoint text_eqb (a b : text) : bool :=
  match a, b with
  | [], [] => true
  | x :: a', y :: b' => (x =? y) && text_eqb a' b'
  | _, _ => false
  end.

(** ** The [payments] table ([PaymentDatabase], [database.py]) *)
Module Store.

Open Scope Z_scope.

(** A row of [payments].  [core] holds the columns the totals read
    ([chat_id], [usd_amount], [riel_amount], [payment_date]); [created_at]
    is the insertion instant in seconds since the epoch.  The [SERIAL] id
    is not modelled. *)
Record row := {
  user_id : Z;
  username : text;
  core : Ledger.payment;
  chat_title : text;
  message_text : text;
  created_at : Z }.

Definition table := list row.

Definition payments (tb : table) : list Ledger.payment := map core tb.

(** Assignment of a value to a [DECIMAL(p, 2)] column: PostgreSQL rounds
    to two fraction digits, half away from zero, and raises
    [numeric field overflow] when the rounded absolute value needs more
    than [p - 2] integer digits.  [scaled_abs q] is [|round(q * 100)|]. *)
Definition scaled_abs (q : Q) : Z :=
  (Z.abs (Qnum q * 100) * 2 + Zpos (Qden q)) / (2 * Zpos (Qden q)).

Definition round_scale2 (q : Q) : Q :=
  Qmake (Z.sgn (Qnum q) * scaled_abs q) 100.

Definition fits_numeric (p : Z) (q : Q) : bool := scaled_abs q <? 10 ^ p.

(** [BIGINT] and [VARCHAR(n)] columns. *)
Definition fits_bigint (x : Z) : bool := (- 2 ^ 63 <=? x) && (x <? 2 ^ 63).
Definition fits_varchar (n : Z) (t : text) : bool := Z.of_nat (length t) <=? n.

(** [PaymentDatabase.add_payment]: one [INSERT] with
    [payment_date = get_cambodia_date()] and [created_at] the current
    instant.  [None] is a raised exception, the table then being left as
    it was. *)
Definition add_payment (tb : table) (user_id0 : Z) (username0 : text)
    (chat_id0 : Z) (chat_title0 message_text0 : text) (usd riel : Q)
    (now_utc : Z) : option table :=
  if fits_bigint user_id0 && fits_varchar 100 username0 && fits_bigint chat_id0
     && fits_varchar 200 chat_title0 && fits_numeric 10 usd && fits_numeric 15 riel
  then
    Some (tb ++
      [{| user_id := user_id0;
          username := username0;
          core := {| Ledger.chat_id := chat_id0;
                     Ledger.usd_amount := round_scale2 usd;
                     Ledger.riel_amount := round_scale2 riel;
                     Ledger.payment_date := Ledger.get_cambodia_date now_utc |};
          chat_title := chat_title0;
          message_text := message_text0;
          created_at := now_utc |}])
  else None.

(** [PaymentDatabase.get_totals] on the table. *)
Definition get_totals (tb : table) (chat : Z) (p : Ledger.period) (now_utc : Z) : Q * Q :=
  Ledger.get_totals (payments tb) chat p now_utc.

(** [SELECT COUNT( * ) FROM payments WHERE chat_id = %s AND <cond>] *)
Definition count_where (ps : list Ledger.payment) (chat : Z) (cond : Z -> bool) : Z :=
  Z.of_nat (length (filter (fun p => (Ledger.chat_id p =? chat) && cond (Ledger.payment_date p)) ps)).

Record stats := {
  total_payments : Z;
  total_usd : Q;
  total_riel : Q;
  today_payments : Z;
  today_usd : Q;
  today_riel : Q }.

(** [PaymentDatabase.get_stats] *)
Definition get_stats (tb : table) (chat : Z) (now_utc : Z) : stats :=
  let ps := payments tb in
  let today := Ledger.get_cambodia_date now_utc in
  let all := fun _ : Z => true in
  let is_today := fun d => d =? today in
  {| total_payments := count_where ps chat all;
     total_usd := fst (Ledger.sum_where ps chat all);
     total_riel := snd (Ledger.sum_where ps chat all);
     today_payments := count_where ps chat is_today;
     today_usd := fst (Ledger.sum_where ps chat is_today);
     today_riel := snd (Ledger.sum_where ps chat is_today) |}.

(** [ORDER BY payment_date DESC, created_at DESC]: [a] may come before [b]. *)
Definition before_or_tied (a b : row) : bool :=
  (Ledger.payment_date (core b) <? Ledger.payment_date (core a))
  || ((Ledger.payment_date (core a) =? Ledger.payment_date (core b))
      && (created_at b <=? created_at a)).

Fixpoint insert_ordered (r : row) (rs : list row) : list row :=
  match rs with
  | [] => [r]
  | x :: rs' => if before_or_tied r x then r :: rs else x :: insert_ordered r rs'
  end.

Definition order_desc (rs : list row) : list row := fold_right insert_ordered [] rs.

(** [PaymentDatabase.get_payments_for_export]: with both dates,
    [payment_date BETWEEN start AND end]; otherwise every row of the chat.
    A [date] is always true, so only [None] takes the second branch. *)
Definition get_payments_for_export (tb : table) (chat : Z)
    (start_date end_date : option Z) : list row :=
  let sel :=
    match start_date, end_date with
    | Some s, Some e => fun r =>
        (Ledger.chat_id (core r) =? chat)
        && (s <=? Ledger.payment_date (core r)) && (Ledger.payment_date (core r) <=? e)
    | _, _ => fun r => Ledger.chat_id (core r) =? chat
    end in
  order_desc (filter sel tb).

(** [safe_title]: the characters [c] of [chat_title] with [c.isalnum()]
    or [c in (' ', '-', '_')], joined, then [.strip()]; [isalnum] is the
    [str.isalnum] of the running Python. *)
Definition safe_title (isalnum : char -> bool) (title : text) : text :=
  strip (filter (fun c => isalnum c || (c =? 32)%N || (c =? 45)%N || (c =? 95)%N) title).

(** Decimal digits of [n >= 0], left-padded with [0] to width [w]. *)
Fixpoint digits_rev (fuel : nat) (n : Z) : text :=
  match fuel with
  | O => []
  | S f => (48 + Z.to_N (n mod 10))%N :: (if n <? 10 then [] else digits_rev f (n / 10))
  end.

Definition pad (w : nat) (n : Z) : text :=
  let ds := rev (digits_rev 20 n) in
  repeat 48%N (w - length ds) ++ ds.

(** [get_cambodia_datetime().strftime('%Y%m%d_%H%M%S')] *)
Definition cambodia_timestamp (now_utc : Z) : text :=
  let local := now_utc + Ledger.cambodia_offset in
  let secs := local mod 86400 in
  let '(y, m, d) := Ledger.civil_from_days (local / 86400) in
  pad 4 y ++ pad 2 m ++ pad 2 d ++ of_string "_"
  ++ pad 2 (secs / 3600) ++ pad 2 (secs mod 3600 / 60) ++ pad 2 (secs mod 60).

(** The start date [export_to_excel] chooses for a period. *)
Definition export_start (period : text) (today : Z) : option Z :=
  if text_eqb period (of_string "week") then Some (today - 7)
  else if text_eqb period (of_string "month") then Some (Ledger.first_of_month today)
  else if text_eqb period (of_string "year") then Some (Ledger.first_of_year today)
  else None.

(** [PaymentDatabase.export_to_excel]: [None] when no row is selected,
    and [None] when building the data frames or writing the workbook
    raises ([write_ok = false]: the [except Exception: return None]
    path); otherwise the file name and the rows of the Payments sheet, in
    order.  The Summary sheet shows [len(df)], the number of these rows,
    and the float sums of their two amount columns, which are not
    modelled.  The instant [now_utc] stands for every
    [get_cambodia_date()] / [get_cambodia_datetime()] call of one export. *)
Definition export_to_excel (isalnum : char -> bool) (tb : table) (chat : Z)
    (title period : text) (now_utc : Z) (write_ok : bool) : option (text * list row) :=
  let today := Ledger.get_cambodia_date now_utc in
  let start_date := export_start period today in
  match get_payments_for_export tb chat start_date (Some today) with
  | [] => None
  | ps =>
      let filename :=
        of_string "payments_" ++ safe_title isalnum title ++ of_string "_" ++ period
        ++ of_string "_" ++ cambodia_timestamp now_utc ++ of_string ".xlsx" in
      if write_ok then Some (filename, ps) else None
  end.

Close Scope Z_scope.

End Store.

(** ** The command handlers of the running bot ([bot_handlers.py]) and
    the wrappers of [currency_extractor.py] they call *)
Module Bot.

(** What the handlers can see of the process: the [payments] table, and
    whether [get_database()], i.e. a fresh [PaymentDatabase()], connects. *)
Record env := {
  table_of : Store.table;
  db_up : bool }.

(** Replies, by the values they format. *)
Inductive reply : Type :=
| AddUsage                                   (* "Add Payment Command" help *)
| PaymentAdded (usd riel today_usd today_riel : Q)
| NoAmountsDetected
| AddFailed                                  (* "Error adding payment" *)
| TotalsText (period : text) (usd riel : Q)  (* format_totals *)
| ExportStarted                              (* "Generating Excel export..." *)
| ExportDocument (filename : text)
| ExportFailed.

(** [" ".join(context.args)] *)
Fixpoint join_args (args : list text) : text :=
  match args with
  | [] => []
  | [a] => a
  | a :: args' => a ++ [32%N] ++ join_args args'
  end.

(** [currency_extractor.add_payment]: [get_database().add_payment(...)],
    re-raising every failure ([None]). *)
Definition add_payment (e : env) (user_id chat_id : Z) (username chat_title message_text : text)
    (usd riel : Q) (now_utc : Z) : option Store.table :=
  if db_up e then
    Store.add_payment (table_of e) user_id username chat_id chat_title message_text usd riel now_utc
  else None.

(** [currency_extractor.get_totals]: every failure gives [(0.0, 0.0)]. *)
Definition get_totals (e : env) (chat : Z) (p : Ledger.period) (now_utc : Z) : Q * Q :=
  if db_up e then Store.get_totals (table_of e) chat p now_utc else (0%Q, 0%Q).

(** [currency_extractor.export_payments]; [write_ok] as in
    [Store.export_to_excel]. *)
Definition export_payments (isalnum : char -> bool) (e : env) (chat : Z) (title period : text)
    (now_utc : Z) (write_ok : bool) : option text :=
  if db_up e then
    option_map fst (Store.export_to_excel isalnum (table_of e) chat title period now_utc write_ok)
  else None.

(** [add_payment_command] for a message from [user_id] ([username]) in
    chat [chat_id] ([chat_title]), with arguments [args]: the replies
    sent and the table afterwards. *)
Definition add_payment_command (e : env) (user_id chat_id : Z) (username chat_title : text)
    (args : list text) (now_utc : Z) : list reply * Store.table :=
  match args with
  | [] => ([AddUsage], table_of e)
  | _ =>
      let payment_text := join_args args in
      let '(usd_amount, riel_amount) := Extractor.extract_amounts payment_text in
      if Qltb 0 usd_amount || Qltb 0 riel_amount then
        match add_payment e user_id chat_id username chat_title
                (of_string "Manual entry: " ++ payment_text)
                usd_amount riel_amount now_utc with
        | Some tb' =>
            let '(current_usd, current_riel) :=
              get_totals {| table_of := tb'; db_up := db_up e |} chat_id Ledger.Today now_utc in
            ([PaymentAdded usd_amount riel_amount current_usd current_riel], tb')
        | None => ([AddFailed], table_of e)
        end
      else ([NoAmountsDetected], table_of e)
  end.

(** [show_total], [weekly_totals], [monthly_totals], [yearly_totals]:
    [format_totals(chat_id, period)]. *)
Definition totals_command (e : env) (chat_id : Z) (p : Ledger.period) (name : text)
    (now_utc : Z) : list reply :=
  let '(usd_total, riel_total) := get_totals e chat_id p now_utc in
  [TotalsText name usd_total riel_total].

Definition export_periods : list text :=
  [of_string "week"; of_string "month"; of_string "year"; of_string "all"].

(** The period [export_excel] settles on; [lower] is [str.lower]. *)
Definition export_period (lower : text -> text) (args : list text) : text :=
  match args with
  | [] => of_string "month"
  | a :: _ =>
      let period_arg := lower a in
      if existsb (text_eqb period_arg) export_periods then period_arg
      else of_string "month"
  end.

(** [export_excel] (the file is sent, then removed). *)
Definition export_excel (isalnum : char -> bool) (lower : text -> text) (e : env)
    (chat_id : Z) (chat_title : text) (args : list text) (now_utc : Z) (write_ok : bool)
    : list reply :=
  let period := export_period lower args in
  match export_payments isalnum e chat_id chat_title period now_utc write_ok with
  | Some filename => [ExportStarted; ExportDocument filename]
  | None => [ExportStarted; ExportFailed]
  end.

End Bot.

(** ** [handlers.py]: handlers written for an asynchronous database *)
Module AsyncHandlers.

(** Result of evaluating a Python expression. *)
Inductive outcome (X : Type) : Type :=
| Returned (x : X)
| Raised (e : string).
Arguments Returned {X} x.
Arguments Raised {X} e.

(** [await v] on the value [v] of a synchronous call: [v] is not
    awaitable (a [tuple], an [int]), so [TypeError] is raised. *)
Definition await_value {X : Type} (v : X) : outcome X :=
  Raised "TypeError".

Inductive reply : Type :=
| Confirmation (usd riel : Q)
| TotalsMessage (usd riel : Q)
| ErrorText.

(** [handle_message] on a message with text [message_text]: the replies
    and the table afterwards.  [db.add_payment(...)] runs (the row is
    inserted) before its integer result is awaited. *)
Definition handle_message (tb : Store.table) (user_id chat_id : Z)
    (username chat_title message_text : text) (now_utc : Z) : list reply * Store.table :=
  match message_text with
  | [] => ([], tb)
  | _ =>
      let '(usd_amount, riel_amount) := Detector.extract_amounts message_text in
      if Qltb 0 usd_amount || Qltb 0 riel_amount then
        match Store.add_payment tb user_id username chat_id chat_title message_text
                usd_amount riel_amount now_utc with
        | None => ([], tb)
        | Some tb' =>
            match await_value tt with
            | Returned _ => ([Confirmation usd_amount riel_amount], tb')
            | Raised _ => ([], tb')   (* logged; no reply for automatic detection *)
            end
        end
      else ([], tb)
  end.

(** [total_command], [week_command], [month_command], [year_command]:
    [usd_total, riel_total = await db.get_totals(chat_id, period)]. *)
Definition totals_command (tb : Store.table) (chat_id : Z) (p : Ledger.period)
    (now_utc : Z) : list reply :=
  match await_value (Store.get_totals tb chat_id p now_utc) with
  | Returned (u, r) => [TotalsMessage u r]
  | Raised _ => [ErrorText]
  end.

End AsyncHandlers.

(** ** Start-up ([main.py]) *)
Module Main.

Inductive event : Type :=
| DbAttempt            (* PaymentDatabase() *)
| Sleep2               (* time.sleep(2) *)
| StartFull            (* setup_handlers(app); app.run_polling(...) *)
| StartEmergency       (* the emergency MessageHandler bot *)
| CompleteFailure.     (* the final raise *)

(** [os.getenv(name)] is [None] or a string, truthy when non-empty. *)
Definition truthy (v : option text) : bool :=
  match v with Some (_ :: _) => true | _ => false end.

(** The [while db_attempts < max_attempts] loop, [max_attempts = 3];
    [db_ok k] tells whether the [k]-th [PaymentDatabase()] succeeds.
    The flag is [true] on [break], [false] on the re-raise. *)
Fixpoint db_loop (fuel : nat) (db_attempts : nat) (db_ok : nat -> bool) : list event * bool :=
  match fuel with
  | O => ([], false)
  | S f =>
      if db_ok db_attempts then ([DbAttempt], true)
      else if (3 <=? S db_attempts)%nat then ([DbAttempt], false)
      else let '(ev, ok) := db_loop f (S db_attempts) db_ok in (DbAttempt :: Sleep2 :: ev, ok)
  end.

(** [main()]: [full_ok] / [emergency_ok] tell whether building and
    polling the full / emergency application returns without raising. *)
Definition main (bot_token database_url : option text) (db_ok : nat -> bool)
    (full_ok emergency_ok : bool) : list event :=
  if negb (truthy bot_token) then []
  else if negb (truthy database_url) then []
  else
    let '(ev, ok) := db_loop 3 0 db_ok in
    let started := if ok then [StartFull] else [] in
    if ok && full_ok then ev ++ started
    else ev ++ started ++ StartEmergency :: (if emergency_ok then [] else [CompleteFailure]).

End Main.

(** ** [PaymentDatabase.connect] *)
Module Connect.

(** [s.startswith(p)] *)
Fixpoint starts_with (p s : text) : bool :=
  match p, s with
  | [], _ => true
  | a :: p', c :: s' => (a =? c) && starts_with p' s'
  | _ :: _, [] => false
  end.

(** [s.replace(old, new, 1)] *)
Fixpoint replace1 (old new s : text) : text :=
  match old with
  | [] => new ++ s
  | _ =>
      if starts_with old s then new ++ skipn (length old) s
      else match s with [] => [] | c :: s' => c :: replace1 old new s' end
  end.

(** The connection parameters handed to [psycopg2.connect]. *)
Inductive target : Type :=
| Dsn (url : text)            (* psycopg2.connect(url) *)
| Parsed (url : text)         (* host=..., database=..., from urlparse(url) *)
| PgVariables.                (* PGHOST, PGDATABASE, ... *)

(** The first attempt, or [None] when [DATABASE_URL] is unset or empty
    (the [Exception("DATABASE_URL not found")] path). *)
Definition primary (database_url : option text) : option target :=
  match database_url with
  | Some ((_ :: _) as u) =>
      if starts_with (of_string "postgresql://") u then Some (Dsn u)
      else if starts_with (of_string "postgres://") u then
        Some (Dsn (replace1 (of_string "postgres://") (of_string "postgresql://") u))
      else Some (Parsed u)
  | _ => None
  end.

(** [connect()]: the target the connection is made with, or [None] when
    it raises; [ok t] tells whether [psycopg2.connect] succeeds on [t]. *)
Definition connect (database_url : option text) (ok : target -> bool) : option target :=
  match primary database_url with
  | Some t => if ok t then Some t
              else if ok PgVariables then Some PgVariables else None
  | None => if ok PgVariables then Some PgVariables else None
  end.

End Connect.

(** ** A bounded check on amounts with one fraction digit *)


(** ** Specification-level notions *)

(** The language of a pattern. *)
Inductive in_re : regex -> text -> Prop :=
| in_eps : in_re Eps []
| in_lit c x : char_eq_ci c x = true -> in_re (Lit c) [x]
| in_digit x : is_decimal x = true -> in_re Digit [x]
| in_space x : is_space x = true -> in_re Space [x]
| in_seq r1 r2 w1 w2 : in_re r1 w1 -> in_re r2 w2 -> in_re (Seq r1 r2) (w1 ++ w2)
| in_opt_some r w : in_re r w -> in_re (Opt r) w
| in_opt_none r : in_re (Opt r) []
| in_star_nil r : in_re (Star r) []
| in_star_cons r w1 w2 : in_re r w1 -> in_re (Star r) w2 -> in_re (Star r) (w1 ++ w2)
| in_group r w : in_re r w -> in_re (Group r) w.

(** Every text a group of [r] can capture satisfies [P]. *)
Fixpoint groups_ok (P : text -> Prop) (r : regex) : Prop :=
  match r with
  | Group r1 => (forall w, in_re r1 w -> P w) /\ groups_ok P r1
  | Seq r1 r2 => groups_ok P r1 /\ groups_ok P r2
  | Opt r1 | Star r1 => groups_ok P r1
  | _ => True
  end.

Definition opt_P (P : text -> Prop) (cap : option text) : Prop :=
  match cap with Some w => P w | None => True end.

(** Every word of the language contains a decimal digit. *)
Fixpoint needs_digit (r : regex) : bool :=
  match r with
  | Digit => true
  | Seq r1 r2 => needs_digit r1 || needs_digit r2
  | Group r1 => needs_digit r1
  | _ => false
  end.

Definition digit_or_comma (c : char) : bool := is_decimal c || (c =? 44).

(** The language only has decimal digits and commas. *)
Fixpoint digits_commas_only (r : regex) : bool :=
  match r with
  | Eps | Digit => true
  | Lit c => c =? 44
  | Space => false
  | Seq r1 r2 => digits_commas_only r1 && digits_commas_only r2
  | Opt r1 | Star r1 | Group r1 => digits_commas_only r1
  end.

Fixpoint groups_dc (r : regex) : bool :=
  match r with
  | Group r1 => digits_commas_only r1 && groups_dc r1
  | Seq r1 r2 => groups_dc r1 && groups_dc r2
  | Opt r1 | Star r1 => groups_dc r1
  | _ => true
  end.

Fixpoint regex_eqb (r1 r2 : regex) : bool :=
  match r1, r2 with
  | Eps, Eps | Digit, Digit | Space, Space => true
  | Lit a, Lit b => a =? b
  | Seq a1 a2, Seq b1 b2 => regex_eqb a1 b1 && regex_eqb a2 b2
  | Opt a, Opt b | Star a, Star b | Group a, Group b => regex_eqb a b
  | _, _ => false
  end.

(** The literal string [m] is a mandatory part of every match of [r]. *)
Fixpoint mentions (m : text) (r : regex) : bool :=
  regex_eqb r (lits m) ||
  match r with
  | Seq r1 r2 => mentions m r1 || mentions m r2
  | Group r1 => mentions m r1
  | _ => false
  end.

(** [m] occurs in [t], compared as [re.IGNORECASE] compares. *)
Fixpoint prefix_ci (m w : text) : bool :=
  match m, w with
  | [], _ => true
  | a :: m', c :: w' => char_eq_ci a c && prefix_ci m' w'
  | _ :: _, [] => false
  end.

Fixpoint infix_ci (m t : text) : bool :=
  prefix_ci m t || match t with [] => false | _ :: t' => infix_ci m t' end.

(** [u] is the maximum of [0] and of the candidates [cs]. *)
Definition is_max0 (u : Q) (cs : list Q) : Prop :=
  (0 <= u)%Q /\ (forall v, In v cs -> (v <= u)%Q) /\ (u = 0%Q \/ In u cs).

(** Every value [float(m.replace(',', ''))] that parses, over all matches
    [m] of all [pats], in the order they are found. *)
Definition candidates (pats : list regex) (t : text) : list Q :=
  flat_map (fun p =>
    flat_map (fun w =>
      match parse_float (remove_commas w) with Some a => [a] | None => [] end)
    (findall p t)) pats.

Definition usd_markers : list text :=
  [of_string "$"; of_string "USD"; of_string "dollar"].
Definition riel_markers : list text :=
  [[0x17DB]; of_string "KHR"; of_string "riel"].

Definition has_digit (t : text) : bool := existsb is_decimal t.

Definition has_marker (ms : list text) (t : text) : bool :=
  existsb (fun m => infix_ci m t) ms.

Definition parses (w : text) : bool :=
  match parse_float (remove_commas w) with Some _ => true | None => false end.

(** Soundness of the matcher: a successful run consumes a word of the
    pattern's language and hands the rest to the continuation. *)
Definition mt_spec (A : Type) (r : regex) : Prop :=
  forall s cap (k : cont A) x,
    mt r s cap k = Some x ->
    exists w s' cap', s = w ++ s' /\ in_re r w /\ k s' cap' = Some x /\
      (forall P, groups_ok P r -> opt_P P cap -> opt_P P cap').

(** ** Matcher soundness *)

Lemma firstn_prefix (w s : text) :
  firstn (length (w ++ s) - length s) (w ++ s) = w.
Proof.
  rewrite length_app, Nat.add_sub.
  rewrite firstn_app, Nat.sub_diag, firstn_O, app_nil_r, firstn_all.
  reflexivity.
Qed.

Section Soundness.
Context {A : Type}.

Lemma star_loop_sound (r : regex) :
  mt_spec A r ->
  forall fuel s cap (k : cont A) x,
    star_loop fuel (mt r) s cap k = Some x ->
    exists w s' cap', s = w ++ s' /\ in_re (Star r) w /\ k s' cap' = Some x /\
      (forall P, groups_ok P r -> opt_P P cap -> opt_P P cap').
Proof.
  intros Hr fuel. induction fuel as [|f IH]; intros s cap k x H; simpl in H.
  - exists [], s, cap. repeat split; auto. constructor.
  - destruct (mt r s cap _) as [y|] eqn:E.
    + injection H as <-.
      destruct (Hr _ _ _ _ E) as (w1 & s1 & cap1 & -> & Hw1 & Hk & HP1).
      destruct (length s1 <? length (w1 ++ s1))%nat; [|discriminate].
      destruct (IH _ _ _ _ Hk) as (w2 & s2 & cap2 & -> & Hw2 & Hk2 & HP2).
      exists (w1 ++ w2), s2, cap2. repeat split; auto.
      * rewrite app_assoc. reflexivity.
      * constructor; assumption.
    + exists [], s, cap. repeat split; auto. constructor.
Qed.

Lemma mt_sound (r : regex) : mt_spec A r.
Proof.
  induction r as [| c | | | r1 IH1 r2 IH2 | r1 IH | r1 IH | r1 IH];
    intros s cap k x H; simpl in H.
  - exists [], s, cap. repeat split; auto. constructor.
  - destruct s as [|y s]; [discriminate|].
    destruct (char_eq_ci c y) eqn:E; [|discriminate].
    exists [y], s, cap. repeat split; auto. constructor; assumption.
  - destruct s as [|y s]; [discriminate|].
    destruct (is_decimal y) eqn:E; [|discriminate].
    exists [y], s, cap. repeat split; auto. constructor; assumption.
  - destruct s as [|y s]; [discriminate|].
    destruct (is_space y) eqn:E; [|discriminate].
    exists [y], s, cap. repeat split; auto. constructor; assumption.
  - destruct (IH1 _ _ _ _ H) as (w1 & s1 & cap1 & -> & Hw1 & Hk & HP1).
    destruct (IH2 _ _ _ _ Hk) as (w2 & s2 & cap2 & -> & Hw2 & Hk2 & HP2).
    exists (w1 ++ w2), s2, cap2. repeat split; auto.
    + rewrite app_assoc. reflexivity.
    + constructor; assumption.
    + intros P [G1 G2] Hc. auto.
  - destruct (mt r1 s cap k) as [y|] eqn:E.
    + injection H as <-.
      destruct (IH _ _ _ _ E) as (w & s' & cap' & -> & Hw & Hk & HP).
      exists w, s', cap'. repeat split; auto. constructor; assumption.
    + exists [], s, cap. repeat split; auto. apply in_opt_none.
  - exact (star_loop_sound r1 IH (S (length s)) s cap k x H).
  - destruct (IH _ _ _ _ H) as (w & s' & cap' & -> & Hw & Hk & HP).
    rewrite firstn_prefix in Hk.
    exists w, s', (Some w). repeat split; auto.
    + constructor; assumption.
    + intros P [G1 G2] _. simpl. auto.
Qed.

End Soundness.

Lemma match_at_sound (r : regex) (s s' : text) (cap : option text) :
  match_at r s = Some (s', cap) ->
  exists w, s = w ++ s' /\ in_re r w /\
    (forall P, groups_ok P r -> opt_P P cap).
Proof.
  unfold match_at. intros H.
  destruct (mt_sound r s None _ _ H) as (w & s1 & cap1 & -> & Hw & Hk & HP).
  injection Hk as -> ->.
  exists w. repeat split; auto. intros P G. exact (HP P G I).
Qed.

Lemma findall_from_sound (fuel : nat) (r : regex) (s g : text) :
  In g (findall_from fuel r s) ->
  exists p w q cap, s = p ++ w ++ q /\ in_re r w /\ g = group1 cap /\
    (forall P, groups_ok P r -> opt_P P cap).
Proof.
  revert s. induction fuel as [|f IH]; intros s H; simpl in H; [contradiction|].
  assert (Hskip : In g (match s with [] => [] | _ :: t => findall_from f r t end) ->
            exists p w q cap, s = p ++ w ++ q /\ in_re r w /\ g = group1 cap /\
              (forall P, groups_ok P r -> opt_P P cap)).
  { destruct s as [|c t]; [contradiction|].
    intros Ht. destruct (IH t Ht) as (p & w & q & cap & -> & Hw & Hg & HP).
    exists (c :: p), w, q, cap. repeat split; auto. }
  destruct (match_at r s) as [[s' cap]|] eqn:E; [|exact (Hskip H)].
  destruct (match_at_sound _ _ _ _ E) as (w & Hs & Hw & HP).
  destruct H as [Hg|H].
  - exists [], w, s', cap. repeat split; auto.
  - destruct (length s' <? length s)%nat; [|exact (Hskip H)].
    destruct (IH s' H) as (p & w' & q & cap' & -> & Hw' & Hg & HP').
    exists (w ++ p), w', q, cap'. repeat split; auto.
    rewrite Hs, app_assoc. reflexivity.
Qed.

(** Every element [re.findall] returns is the group of a match of the
    pattern inside the text. *)
Lemma findall_capture (r : regex) (s g : text) :
  In g (findall r s) ->
  exists p w q, s = p ++ w ++ q /\ in_re r w /\
    (forall P, groups_ok P r -> P [] -> P g).
Proof.
  unfold findall. intros H.
  destruct (findall_from_sound _ _ _ _ H) as (p & w & q & cap & Hs & Hw & -> & HP).
  exists p, w, q. repeat split; auto.
  intros P G Hnil. specialize (HP P G). destruct cap; simpl in *; auto.
Qed.

Lemma findall_nil (r : regex) (s : text) :
  (forall p w q, s = p ++ w ++ q -> ~ in_re r w) -> findall r s = [].
Proof.
  intros H. destruct (findall r s) as [|g l] eqn:E; [reflexivity|].
  exfalso. destruct (findall_capture r s g) as (p & w & q & Hs & Hw & _).
  - rewrite E. left. reflexivity.
  - exact (H p w q Hs Hw).
Qed.

(** ** Facts about the pattern languages *)

Lemma needs_digit_sound (r : regex) (w : text) :
  in_re r w -> needs_digit r = true ->
  exists c, In c w /\ is_decimal c = true.
Proof.
  induction 1 as [| c x Hx | x Hx | x Hx | r1 r2 w1 w2 H1 IH1 H2 IH2
                 | r w H IH | r | r | r w1 w2 H1 IH1 H2 IH2 | r w H IH];
    simpl; intros Hn; try discriminate.
  - exists x. split; [left; reflexivity | assumption].
  - apply orb_true_iff in Hn as [Hn|Hn].
    + destruct (IH1 Hn) as (c & Hc & Hd). exists c. split; auto.
      apply in_or_app. left. assumption.
    + destruct (IH2 Hn) as (c & Hc & Hd). exists c. split; auto.
      apply in_or_app. right. assumption.
  - exact (IH Hn).
Qed.

Lemma char_eq_ci_comma (x : char) : char_eq_ci 44 x = true -> x = 44.
Proof.
  unfold char_eq_ci. intros H. apply N.eqb_eq in H.
  change (sre_fold 44) with 44 in H.
  unfold sre_fold, sre_lower in H.
  repeat match type of H with
  | context [if ?b then _ else _] =>
      let E := fresh "E" in destruct b eqn:E
  end;
  repeat match goal with
  | E : (_ && _)%bool = true |- _ => apply andb_true_iff in E as [? ?]
  | E : (_ && _)%bool = false |- _ => apply andb_false_iff in E as [?|?]
  | E : negb _ = true |- _ => apply negb_true_iff in E
  | E : (_ <=? _) = true |- _ => apply N.leb_le in E
  | E : (_ <=? _) = false |- _ => apply N.leb_gt in E
  | E : (_ =? _) = true |- _ => apply N.eqb_eq in E
  | E : (_ =? _) = false |- _ => apply N.eqb_neq in E
  end; lia.
Qed.

Lemma digits_commas_sound (r : regex) (w : text) :
  in_re r w -> digits_commas_only r = true ->
  forallb digit_or_comma w = true.
Proof.
  induction 1 as [| c x Hx | x Hx | x Hx | r1 r2 w1 w2 H1 IH1 H2 IH2
                 | r w H IH | r | r | r w1 w2 H1 IH1 H2 IH2 | r w H IH];
    simpl; intros Hd; try discriminate; auto.
  - apply N.eqb_eq in Hd. subst c.
    rewrite (char_eq_ci_comma x Hx). reflexivity.
  - unfold digit_or_comma. rewrite Hx. reflexivity.
  - apply andb_true_iff in Hd as [Hd1 Hd2].
    rewrite forallb_app, IH1, IH2; auto.
  - rewrite forallb_app, IH1, IH2; auto.
Qed.

Lemma groups_dc_ok (r : regex) :
  groups_dc r = true ->
  groups_ok (fun w => forallb digit_or_comma w = true) r.
Proof.
  induction r as [| c | | | r1 IH1 r2 IH2 | r1 IH | r1 IH | r1 IH];
    simpl; intros H; auto.
  - apply andb_true_iff in H as [H1 H2]. split; auto.
  - apply andb_true_iff in H as [H1 H2]. split; auto.
    intros w Hw. exact (digits_commas_sound r1 w Hw H1).
Qed.

Lemma regex_eqb_eq (r1 r2 : regex) : regex_eqb r1 r2 = true -> r1 = r2.
Proof.
  revert r2.
  induction r1 as [| c | | | a1 IH1 a2 IH2 | a IH | a IH | a IH];
    intros [| c' | | | b1 b2 | b | b | b]; simpl; intros H;
    try discriminate; auto.
  - apply N.eqb_eq in H. subst. reflexivity.
  - apply andb_true_iff in H as [H1 H2]. rewrite (IH1 _ H1), (IH2 _ H2). reflexivity.
  - rewrite (IH _ H). reflexivity.
  - rewrite (IH _ H). reflexivity.
  - rewrite (IH _ H). reflexivity.
Qed.

(** ** Literal markers *)

Lemma prefix_ci_app (m w q : text) :
  prefix_ci m w = true -> prefix_ci m (w ++ q) = true.
Proof.
  revert w. induction m as [|a m IH]; intros [|c w] H; simpl in *; auto.
  - discriminate.
  - apply andb_true_iff in H as [H1 H2]. rewrite H1, (IH w H2). reflexivity.
Qed.

Lemma prefix_infix (m w : text) : prefix_ci m w = true -> infix_ci m w = true.
Proof. destruct w; simpl; intros H; rewrite H; reflexivity. Qed.

Lemma infix_ci_app_r (m w q : text) :
  infix_ci m w = true -> infix_ci m (w ++ q) = true.
Proof.
  induction w as [|c w IH]; simpl; intros H.
  - rewrite orb_false_r in H. apply prefix_infix.
    exact (prefix_ci_app m [] q H).
  - apply orb_true_iff in H as [H|H].
    + pose proof (prefix_ci_app m (c :: w) q H) as H'. simpl in H'.
      rewrite H'. reflexivity.
    + rewrite (IH H), orb_true_r. reflexivity.
Qed.

Lemma infix_ci_app_l (m p w : text) :
  infix_ci m w = true -> infix_ci m (p ++ w) = true.
Proof.
  induction p as [|c p IH]; simpl; intros H; auto.
  rewrite (IH H), orb_true_r. reflexivity.
Qed.

Lemma infix_ci_inside (m p w q : text) :
  infix_ci m w = true -> infix_ci m (p ++ w ++ q) = true.
Proof. intros H. apply infix_ci_app_l, infix_ci_app_r, H. Qed.

Lemma lits_prefix (m w : text) : in_re (lits m) w -> prefix_ci m w = true.
Proof.
  revert w. induction m as [|a m IH]; simpl; intros w H.
  - reflexivity.
  - inversion H as [| | | | r1 r2 w1 w2 H1 H2 | | | | |]; subst.
    inversion H1; subst. simpl.
    match goal with Hc : char_eq_ci a _ = true |- _ => rewrite Hc end.
    simpl. exact (IH _ H2).
Qed.

Lemma mentions_sound (m : text) (r : regex) (w : text) :
  in_re r w -> mentions m r = true -> infix_ci m w = true.
Proof.
  assert (Hl : forall r w, in_re r w -> regex_eqb r (lits m) = true ->
                 infix_ci m w = true).
  { intros r0 w0 H0 E. apply regex_eqb_eq in E. subst r0.
    apply prefix_infix, lits_prefix, H0. }
  induction 1 as [| c x Hx | x Hx | x Hx | r1 r2 w1 w2 H1 IH1 H2 IH2
                 | r w H IH | r | r | r w1 w2 H1 IH1 H2 IH2 | r w H IH];
    cbn [mentions]; intros Hm; apply orb_true_iff in Hm as [Hm|Hm];
    try discriminate;
    try (eapply Hl; [econstructor; eauto | exact Hm]).
  - apply orb_true_iff in Hm as [Hm|Hm].
    + apply infix_ci_app_r, IH1, Hm.
    + apply infix_ci_app_l, IH2, Hm.
  - destruct m; simpl in Hm; discriminate.
  - exact (IH Hm).
Qed.

(** ** [str.strip] keeps an infix of the text *)

Lemma lstrip_suffix (t : text) : exists a, t = a ++ lstrip t.
Proof.
  induction t as [|c t [a IH]]; simpl.
  - exists []. reflexivity.
  - destruct (is_space c).
    + exists (c :: a). simpl. rewrite <- IH. reflexivity.
    + exists []. reflexivity.
Qed.

Lemma strip_infix (t : text) : exists a b, t = a ++ strip t ++ b.
Proof.
  destruct (lstrip_suffix t) as [a Ha].
  destruct (lstrip_suffix (rev (lstrip t))) as [b Hb].
  exists a, (rev b). unfold strip.
  rewrite Ha at 1. f_equal.
  rewrite <- rev_app_distr, <- Hb, rev_involutive. reflexivity.
Qed.

Lemma infix_in (c : char) (p w q : text) : In c w -> In c (p ++ w ++ q).
Proof. intros H. apply in_or_app. right. apply in_or_app. left. exact H. Qed.

(** Positions inside [strip t] are positions inside [t]. *)
Lemma strip_inside (t p w q : text) :
  strip t = p ++ w ++ q -> exists p' q', t = p' ++ w ++ q'.
Proof.
  intros H. destruct (strip_infix t) as (a & b & Ht).
  exists (a ++ p), (q ++ b). rewrite Ht, H. repeat rewrite <- app_assoc. reflexivity.
Qed.

(** No digit in the text: no digit-requiring pattern matches. *)
Lemma findall_no_digit (r : regex) (t : text) :
  needs_digit r = true -> (forall c, In c t -> is_decimal c = false) ->
  findall r (strip t) = [].
Proof.
  intros Hr Ht. apply findall_nil. intros p w q Hs Hw.
  destruct (needs_digit_sound r w Hw Hr) as (c & Hc & Hd).
  destruct (strip_inside t p w q Hs) as (p' & q' & Ht').
  rewrite (Ht c) in Hd; [discriminate|]. rewrite Ht'. apply infix_in, Hc.
Qed.

(** No marker in the text: no pattern mentioning one matches. *)
Lemma findall_no_marker (ms : list text) (r : regex) (t : text) :
  existsb (fun m => mentions m r) ms = true -> has_marker ms t = false ->
  findall r (strip t) = [].
Proof.
  intros Hr Ht. apply findall_nil. intros p w q Hs Hw.
  apply existsb_exists in Hr as (m & Hm & Hmr).
  destruct (strip_inside t p w q Hs) as (p' & q' & Ht').
  assert (Hi : infix_ci m t = true).
  { rewrite Ht'. apply infix_ci_inside, (mentions_sound m r w Hw Hmr). }
  unfold has_marker in Ht.
  assert (Hx : existsb (fun m => infix_ci m t) ms = true).
  { apply existsb_exists. exists m. auto. }
  congruence.
Qed.

(** ** The "largest amount" loops *)

Lemma Qltb_true (x y : Q) : Qltb x y = true -> (x < y)%Q.
Proof.
  unfold Qltb. intros H. apply negb_true_iff in H.
  apply Qnot_le_lt. intros Hle. apply Qle_bool_iff in Hle. congruence.
Qed.

Lemma Qltb_false (x y : Q) : Qltb x y = false -> (y <= x)%Q.
Proof.
  unfold Qltb. intros H. apply negb_false_iff in H. apply Qle_bool_iff, H.
Qed.

Lemma take_larger_fold (ws : list text) (acc : Q) :
  let u := fold_left Extractor.take_larger ws acc in
  (acc <= u)%Q /\
  (forall w a, In w ws -> parse_float (remove_commas w) = Some a -> (a <= u)%Q) /\
  (u = acc \/ exists w, In w ws /\ parse_float (remove_commas w) = Some u).
Proof.
  revert acc. induction ws as [|w0 ws IH]; intros acc; simpl.
  - split; [apply Qle_refl|]. split; [contradiction|]. left. reflexivity.
  - destruct (IH (Extractor.take_larger acc w0)) as (H1 & H2 & H3).
    set (u := fold_left Extractor.take_larger ws (Extractor.take_larger acc w0)) in *.
    assert (Hstep : (acc <= Extractor.take_larger acc w0)%Q).
    { unfold Extractor.take_larger.
      destruct (parse_float (remove_commas w0)) as [a|]; [|apply Qle_refl].
      destruct (Qltb acc a) eqn:E; [|apply Qle_refl].
      apply Qlt_le_weak, Qltb_true, E. }
    split; [exact (Qle_trans _ _ _ Hstep H1)|]. split.
    + intros w a [->|Hw] Ha; [|exact (H2 w a Hw Ha)].
      apply (Qle_trans _ (Extractor.take_larger acc w)); [|exact H1].
      unfold Extractor.take_larger. rewrite Ha.
      destruct (Qltb acc a) eqn:E; [apply Qle_refl|apply Qltb_false, E].
    + destruct H3 as [Hu|(w & Hw & Hu)].
      * rewrite Hu. unfold Extractor.take_larger.
        destruct (parse_float (remove_commas w0)) as [a|] eqn:Ha; [|left; reflexivity].
        destruct (Qltb acc a); [|left; reflexivity].
        right. exists w0. split; [left; reflexivity | exact Ha].
      * right. exists w. split; [right; exact Hw | exact Hu].
Qed.

Lemma scan_flat (pats : list regex) (t : text) (acc : Q) :
  Extractor.scan pats t acc =
  fold_left Extractor.take_larger (flat_map (fun p => findall p t) pats) acc.
Proof.
  unfold Extractor.scan. revert acc.
  induction pats as [|p pats IH]; intros acc; simpl; [reflexivity|].
  rewrite fold_left_app. apply IH.
Qed.

Lemma in_candidates (pats : list regex) (t : text) (v : Q) :
  In v (candidates pats t) <->
  exists p w, In p pats /\ In w (findall p t) /\ parse_float (remove_commas w) = Some v.
Proof.
  unfold candidates. rewrite in_flat_map. split.
  - intros (p & Hp & Hv). apply in_flat_map in Hv as (w & Hw & Hv).
    destruct (parse_float (remove_commas w)) as [a|] eqn:E; [|contradiction].
    destruct Hv as [<-|[]]. exists p, w. auto.
  - intros (p & w & Hp & Hw & Hv). exists p. split; [exact Hp|].
    apply in_flat_map. exists w. split; [exact Hw|]. rewrite Hv. left. reflexivity.
Qed.

Lemma scan_is_max0 (pats : list regex) (t : text) :
  is_max0 (Extractor.scan pats t 0) (candidates pats t).
Proof.
  rewrite scan_flat.
  destruct (take_larger_fold (flat_map (fun p => findall p t) pats) 0)
    as (H1 & H2 & H3).
  split; [exact H1|]. split.
  - intros v Hv. apply in_candidates in Hv as (p & w & Hp & Hw & Hv).
    apply (H2 w v); [|exact Hv]. apply in_flat_map. exists p. auto.
  - destruct H3 as [Hu|(w & Hw & Hu)]; [left; exact Hu|right].
    apply in_flat_map in Hw as (p & Hp & Hw).
    apply in_candidates. exists p, w. auto.
Qed.

Lemma py_max_props (x : Q) (xs : list Q) :
  (x <= Detector.py_max x xs)%Q /\
  (forall v, In v xs -> (v <= Detector.py_max x xs)%Q) /\
  In (Detector.py_max x xs) (x :: xs).
Proof.
  unfold Detector.py_max. revert x.
  induction xs as [|a xs IH]; intros x; simpl.
  - split; [apply Qle_refl|]. split; [contradiction|]. left. reflexivity.
  - destruct (IH (if Qltb x a then a else x)) as (H1 & H2 & H3).
    assert (Hx : (x <= (if Qltb x a then a else x))%Q /\
                 (a <= (if Qltb x a then a else x))%Q).
    { destruct (Qltb x a) eqn:E.
      - split; [apply Qlt_le_weak, Qltb_true, E | apply Qle_refl].
      - split; [apply Qle_refl | apply Qltb_false, E]. }
    destruct Hx as [Hx Ha].
    split; [exact (Qle_trans _ _ _ Hx H1)|]. split.
    + intros v [<-|Hv]; [exact (Qle_trans _ _ _ Ha H1) | exact (H2 v Hv)].
    + destruct H3 as [H3|H3]; [|right; right; exact H3].
      rewrite <- H3. destruct (Qltb x a); [right; left|left]; reflexivity.
Qed.

Lemma in_collect (pats : list regex) (t : text) (v : Q) :
  In v (Detector.collect pats t) <-> In v (candidates pats t) /\ (0 < v)%Q.
Proof.
  unfold Detector.collect. rewrite in_flat_map, in_candidates. split.
  - intros (p & Hp & Hv). apply in_flat_map in Hv as (w & Hw & Hv).
    destruct (parse_float (remove_commas w)) as [a|] eqn:E; [|contradiction].
    destruct (Qltb 0 a) eqn:Ep; [|contradiction].
    destruct Hv as [<-|[]]. split; [exists p, w; auto | apply Qltb_true, Ep].
  - intros ((p & w & Hp & Hw & Hv) & Hpos). exists p. split; [exact Hp|].
    apply in_flat_map. exists w. split; [exact Hw|]. rewrite Hv.
    destruct (Qltb 0 v) eqn:Ep; [left; reflexivity|].
    apply Qltb_false in Ep. exfalso. apply (Qlt_not_le _ _ Hpos Ep).
Qed.

Lemma collect_is_max0 (pats : list regex) (t : text) :
  is_max0 (Detector.max_or_zero (Detector.collect pats t)) (candidates pats t).
Proof.
  assert (Hle : forall u v, (0 <= u)%Q -> In v (candidates pats t) ->
            (In v (Detector.collect pats t) -> (v <= u)%Q) -> (v <= u)%Q).
  { intros u v Hu Hv Hc. destruct (Qlt_le_dec 0 v) as [Hp|Hn].
    - apply Hc, in_collect. auto.
    - exact (Qle_trans _ _ _ Hn Hu). }
  destruct (Detector.collect pats t) as [|x xs] eqn:E; simpl.
  - split; [apply Qle_refl|]. split; [|left; reflexivity].
    intros v Hv. apply (Hle 0%Q v (Qle_refl 0) Hv). contradiction.
  - destruct (py_max_props x xs) as (H1 & H2 & H3).
    assert (Hx : In x (Detector.collect pats t)) by (rewrite E; left; reflexivity).
    apply in_collect in Hx as [_ Hx].
    assert (H0 : (0 <= Detector.py_max x xs)%Q)
      by exact (Qle_trans _ _ _ (Qlt_le_weak _ _ Hx) H1).
    split; [exact H0|]. split.
    + intros v Hv. apply (Hle _ v H0 Hv).
      intros [<-|Hv']; [exact H1 | exact (H2 v Hv')].
    + right. rewrite <- E in H3. apply in_collect in H3 as [H3 _]. exact H3.
Qed.

(** ** Facts about the pattern tables *)

Lemma pattern_tables_need_digit :
  forallb needs_digit Extractor.usd_patterns = true /\
  forallb needs_digit Extractor.riel_patterns = true /\
  forallb needs_digit Detector.usd_patterns = true /\
  forallb needs_digit Detector.riel_patterns = true.
Proof. repeat split; vm_compute; reflexivity. Qed.

Lemma riel_groups_digits_commas :
  forallb groups_dc Extractor.riel_patterns = true /\
  forallb groups_dc Detector.riel_patterns = true.
Proof. split; vm_compute; reflexivity. Qed.

Lemma usd_patterns_mention_marker :
  forallb (fun p => existsb (fun m => mentions m p) usd_markers)
    Extractor.usd_patterns = true /\
  forallb (fun p => existsb (fun m => mentions m p) usd_markers)
    Detector.usd_patterns = true.
Proof. split; vm_compute; reflexivity. Qed.

Lemma detector_riel_patterns_mention_marker :
  forallb (fun p => existsb (fun m => mentions m p) riel_markers)
    Detector.riel_patterns = true.
Proof. vm_compute. reflexivity. Qed.

Lemma scan_all_nil (pats : list regex) (t : text) (acc : Q) :
  (forall p, In p pats -> findall p t = []) -> Extractor.scan pats t acc = acc.
Proof.
  intros H. rewrite scan_flat.
  replace (flat_map (fun p => findall p t) pats) with (@nil text); [reflexivity|].
  induction pats as [|p pats IH]; simpl; [reflexivity|].
  rewrite (H p (or_introl eq_refl)). apply IH. intros p' Hp'. apply H. right. exact Hp'.
Qed.

Lemma collect_all_nil (pats : list regex) (t : text) :
  (forall p, In p pats -> findall p t = []) -> Detector.collect pats t = [].
Proof.
  intros H. unfold Detector.collect.
  induction pats as [|p pats IH]; simpl; [reflexivity|].
  rewrite (H p (or_introl eq_refl)). apply IH. intros p' Hp'. apply H. right. exact Hp'.
Qed.

Lemma no_digit_all_nil (pats : list regex) (t : text) :
  forallb needs_digit pats = true -> has_digit t = false ->
  forall p, In p pats -> findall p (strip t) = [].
Proof.
  intros Hp Ht p Hin. apply findall_no_digit.
  - rewrite forallb_forall in Hp. apply Hp, Hin.
  - intros c Hc. destruct (is_decimal c) eqn:E; [|reflexivity].
    unfold has_digit in Ht.
    assert (existsb is_decimal t = true) by (apply existsb_exists; eauto).
    congruence.
Qed.

Lemma no_marker_all_nil (ms : list text) (pats : list regex) (t : text) :
  forallb (fun p => existsb (fun m => mentions m p) ms) pats = true ->
  has_marker ms t = false ->
  forall p, In p pats -> findall p (strip t) = [].
Proof.
  intros Hp Ht p Hin. apply (findall_no_marker ms); [|exact Ht].
  rewrite forallb_forall in Hp. apply Hp, Hin.
Qed.

Lemma strip_nil : strip [] = [].
Proof. reflexivity. Qed.

(** USD extraction ignores the Riel patterns and needs a USD marker, in
    both modules. *)
Lemma usd_needs_usd_marker (t : text) :
  has_marker usd_markers t = false ->
  fst (Extractor.extract_amounts t) = 0%Q /\ fst (Detector.extract_amounts t) = 0%Q.
Proof.
  intros H. destruct usd_patterns_mention_marker as [HE HD]. split.
  - change (fst (Extractor.extract_amounts t))
      with (Extractor.scan Extractor.usd_patterns (strip t) 0%Q).
    apply scan_all_nil, (no_marker_all_nil usd_markers); assumption.
  - unfold Detector.extract_amounts, Detector.extract_amounts_self. destruct t as [|c t']; [reflexivity|].
    change (Detector.max_or_zero (Detector.collect Detector.usd_patterns
              (strip (c :: t'))) = 0%Q).
    rewrite collect_all_nil; [reflexivity|].
    apply (no_marker_all_nil usd_markers); assumption.
Qed.

(** In [currency_detector], Riel extraction needs a Riel marker. *)
Lemma detector_riel_needs_riel_marker (t : text) :
  has_marker riel_markers t = false -> snd (Detector.extract_amounts t) = 0%Q.
Proof.
  intros H. unfold Detector.extract_amounts, Detector.extract_amounts_self. destruct t as [|c t']; [reflexivity|].
  change (Detector.max_or_zero (Detector.collect Detector.riel_patterns
            (strip (c :: t'))) = 0%Q).
  rewrite collect_all_nil; [reflexivity|].
  apply (no_marker_all_nil riel_markers);
    [exact detector_riel_patterns_mention_marker | exact H].
Qed.

(** Every numeral a Riel pattern captures is made of digits and commas. *)
Lemma riel_capture_digits (pats : list regex) (t w : text) :
  forallb groups_dc pats = true ->
  (exists p, In p pats /\ In w (findall p t)) ->
  forallb digit_or_comma w = true.
Proof.
  intros Hg (p & Hp & Hw).
  destruct (findall_capture p t w Hw) as (a & x & b & _ & _ & HP).
  apply (HP (fun w => forallb digit_or_comma w = true)); [|reflexivity].
  apply groups_dc_ok. rewrite forallb_forall in Hg. apply Hg, Hp.
Qed.

Lemma remove_commas_digits (w : text) :
  forallb digit_or_comma w = true -> forallb is_decimal (remove_commas w) = true.
Proof.
  induction w as [|c w IH]; simpl; intros H; [reflexivity|].
  apply andb_true_iff in H as [Hc Hw]. unfold digit_or_comma in Hc.
  destruct (c =? 44) eqn:E; simpl.
  - apply IH, Hw.
  - rewrite orb_false_r in Hc. rewrite Hc. apply IH, Hw.
Qed.

Lemma take_digits_all (w : text) :
  forallb is_decimal w = true -> snd (take_digits w) = [].
Proof.
  induction w as [|c w IH]; simpl; intros H; [reflexivity|].
  apply andb_true_iff in H as [Hc Hw]. unfold is_decimal in Hc.
  destruct (decimal_value c) as [d|]; [|discriminate].
  specialize (IH Hw). destruct (take_digits w) as [ds r]. simpl in *. exact IH.
Qed.

Lemma parse_digits_integral (w : text) (a : Q) :
  forallb is_decimal w = true -> parse_float w = Some a -> exists z, a = inject_Z z.
Proof.
  intros Hw Hp. unfold parse_float in Hp.
  pose proof (take_digits_all w Hw) as Hr.
  destruct (take_digits w) as [ip rest]. simpl in Hr. subst rest.
  destruct ip; [discriminate|]. injection Hp as <-. eexists. reflexivity.
Qed.

Lemma riel_candidates_integral (pats : list regex) (t : text) (v : Q) :
  forallb groups_dc pats = true -> In v (candidates pats t) -> exists z, v = inject_Z z.
Proof.
  intros Hg Hv. apply in_candidates in Hv as (p & w & Hp & Hw & Hv).
  apply (parse_digits_integral (remove_commas w)); [|exact Hv].
  apply remove_commas_digits, (riel_capture_digits pats t w Hg). eauto.
Qed.

Lemma candidates_all_nil (pats : list regex) (t : text) :
  (forall p, In p pats -> findall p t = []) -> candidates pats t = [].
Proof.
  intros H. unfold candidates.
  induction pats as [|p pats IH]; simpl; [reflexivity|].
  rewrite (H p (or_introl eq_refl)). apply IH. intros p' Hp'. apply H. right. exact Hp'.
Qed.

Lemma is_max0_nil : is_max0 0%Q [].
Proof. split; [apply Qle_refl|]. split; [contradiction | left; reflexivity]. Qed.

Lemma extractor_usd_max (t : text) :
  is_max0 (fst (Extractor.extract_amounts t)) (candidates Extractor.usd_patterns (strip t)).
Proof. apply scan_is_max0. Qed.

Lemma extractor_riel_max (t : text) :
  is_max0 (snd (Extractor.extract_amounts t)) (candidates Extractor.riel_patterns (strip t)).
Proof. apply scan_is_max0. Qed.

Lemma detector_max (t : text) (pats : list regex) :
  forallb needs_digit pats = true ->
  is_max0 (Detector.max_or_zero
             (Detector.collect pats (strip t)) ) (candidates pats (strip t)) ->
  is_max0 (match t with [] => 0%Q | _ => Detector.max_or_zero
             (Detector.collect pats (strip t)) end) (candidates pats (strip t)).
Proof.
  intros Hd H. destruct t as [|c t']; [|exact H].
  rewrite candidates_all_nil; [exact is_max0_nil|].
  apply no_digit_all_nil; [exact Hd | reflexivity].
Qed.

Lemma detector_usd_max (t : text) :
  is_max0 (fst (Detector.extract_amounts t)) (candidates Detector.usd_patterns (strip t)).
Proof.
  destruct pattern_tables_need_digit as (_ & _ & Hd & _).
  replace (fst (Detector.extract_amounts t))
    with (match t with [] => 0%Q | _ => Detector.max_or_zero
            (Detector.collect Detector.usd_patterns (strip t)) end)
    by (destruct t; reflexivity).
  apply detector_max; [exact Hd | apply collect_is_max0].
Qed.

Lemma detector_riel_max (t : text) :
  is_max0 (snd (Detector.extract_amounts t)) (candidates Detector.riel_patterns (strip t)).
Proof.
  destruct pattern_tables_need_digit as (_ & _ & _ & Hd).
  replace (snd (Detector.extract_amounts t))
    with (match t with [] => 0%Q | _ => Detector.max_or_zero
            (Detector.collect Detector.riel_patterns (strip t)) end)
    by (destruct t; reflexivity).
  apply detector_max; [exact Hd | apply collect_is_max0].
Qed.

Lemma digits_to_Z_nonneg (ds : list N) : (0 <= digits_to_Z ds)%Z.
Proof.
  unfold digits_to_Z.
  assert (H : forall acc, (0 <= acc)%Z ->
            (0 <= fold_left (fun acc d => (acc * 10 + Z.of_N d)%Z) ds acc)%Z).
  { induction ds as [|d ds IH]; simpl; intros acc Hacc; [exact Hacc|].
    apply IH. lia. }
  apply H. lia.
Qed.

Lemma parse_float_nonneg (w : text) (a : Q) : parse_float w = Some a -> (0 <= a)%Q.
Proof.
  unfold parse_float. destruct (take_digits w) as [ip rest].
  destruct rest as [|c rest'].
  - destruct ip; intros H; [discriminate|]. injection H as <-.
    unfold Qle. simpl. pose proof (digits_to_Z_nonneg (n :: ip)). lia.
  - destruct (c =? 46); [|discriminate].
    destruct (take_digits rest') as [fp rest2].
    destruct rest2 as [|x r]; [|discriminate].
    intros H.
    assert (Hq : forall q, Some (Qred q) = Some a -> (0 <= Qnum q)%Z -> (0 <= a)%Q).
    { intros q Hs Hn. injection Hs as <-. rewrite Qred_correct.
      unfold Qle. simpl. lia. }
    destruct ip as [|i ip]; destruct fp as [|f fp]; try discriminate;
      (eapply Hq; [exact H|]); apply digits_to_Z_nonneg.
Qed.

Lemma candidates_nonneg (pats : list regex) (t : text) (v : Q) :
  In v (candidates pats t) -> (0 <= v)%Q.
Proof.
  intros Hv. apply in_candidates in Hv as (p & w & _ & _ & Hv).
  exact (parse_float_nonneg _ _ Hv).
Qed.

Lemma candidates_incl (pats pats' : list regex) (t : text) (v : Q) :
  incl pats pats' -> In v (candidates pats t) -> In v (candidates pats' t).
Proof.
  intros Hi Hv. apply in_candidates in Hv as (p & w & Hp & Hw & Hv).
  apply in_candidates. exists p, w. auto.
Qed.

Lemma take_larger_discard (acc : Q) (w : text) :
  (0 <= acc)%Q ->
  (parse_float (remove_commas w) = None \/
   exists a, parse_float (remove_commas w) = Some a /\ (a <= 0)%Q) ->
  Extractor.take_larger acc w = acc.
Proof.
  intros Hacc Hw. unfold Extractor.take_larger.
  destruct Hw as [Hw|(a & Hw & Ha)]; rewrite Hw; [reflexivity|].
  destruct (Qltb acc a) eqn:E; [|reflexivity].
  apply Qltb_true in E. exfalso.
  apply (Qlt_not_le _ _ E), (Qle_trans _ _ _ Ha Hacc).
Qed.

Lemma take_larger_filter (ws : list text) (acc : Q) :
  fold_left Extractor.take_larger ws acc =
  fold_left Extractor.take_larger (filter parses ws) acc.
Proof.
  revert acc. induction ws as [|w ws IH]; intros acc; simpl; [reflexivity|].
  unfold parses at 1. destruct (parse_float (remove_commas w)) eqn:E; simpl.
  - apply IH.
  - unfold Extractor.take_larger at 2. rewrite E. apply IH.
Qed.

(** ** Calls read no state but the (never written) detector object *)
Section Purity.
Import Effects.

Lemma ro_ret {X : Type} (x : X) : reads_only (ret x) (fun _ => x).
Proof. intros w. split; reflexivity. Qed.

Lemma ro_tell (e : log_entry) : reads_only (tell e) (fun _ => tt).
Proof. intros w. split; reflexivity. Qed.

Lemma ro_get_self : reads_only get_self (fun d => d).
Proof. intros w. split; reflexivity. Qed.

Lemma ro_ext {X : Type} (m : M X) (f g : Detector.currency_detector -> X) :
  reads_only m f -> (forall d, f d = g d) -> reads_only m g.
Proof. intros H E w. rewrite <- E. apply H. Qed.

Lemma ro_bind {X Y : Type} (m : M X) (f : Detector.currency_detector -> X)
    (k : X -> M Y) (g : X -> Detector.currency_detector -> Y) :
  reads_only m f -> (forall x, reads_only (k x) (g x)) ->
  reads_only (bind m k) (fun d => g (f d) d).
Proof.
  intros Hm Hk w. unfold bind. destruct (Hm w) as [H1 H2].
  destruct (m w) as [x w'] eqn:E. simpl in H1, H2.
  destruct (Hk x w') as [H3 H4]. rewrite H3, H4, H2, H1. split; reflexivity.
Qed.

Lemma ro_foldM {X Y : Type} (f : Y -> X -> M Y) (g : Y -> X -> Y) (l : list X) (y : Y) :
  (forall y x, reads_only (f y x) (fun _ => g y x)) ->
  reads_only (foldM f l y) (fun _ => fold_left g l y).
Proof.
  intros Hf. revert y. induction l as [|x l IH]; intros y; simpl.
  - apply ro_ret.
  - eapply ro_ext; [apply ro_bind; [apply Hf | intros y'; apply IH]|].
    reflexivity.
Qed.

Lemma ro_take_larger (mk : Q -> log_entry) (acc : Q) (w : text) :
  reads_only (take_larger_m mk acc w) (fun _ => Extractor.take_larger acc w).
Proof.
  unfold take_larger_m, Extractor.take_larger.
  destruct (parse_float (remove_commas w)) as [a|]; [|apply ro_ret].
  destruct (Qltb acc a); [|apply ro_ret].
  eapply ro_ext; [apply ro_bind; [apply ro_tell | intros u; exact (ro_ret _)]|].
  reflexivity.
Qed.

Lemma ro_scan (mk : Q -> log_entry) (pats : list regex) (t : text) (acc : Q) :
  reads_only (scan_m mk pats t acc) (fun _ => Extractor.scan pats t acc).
Proof.
  unfold scan_m, Extractor.scan. apply ro_foldM.
  intros acc' p. apply ro_foldM. intros y w. apply ro_take_larger.
Qed.

Lemma ro_extractor_call (t : text) :
  reads_only (extractor_call t) (fun _ => Extractor.extract_amounts t).
Proof.
  intros w. unfold extractor_call, bind.
  destruct (ro_scan LogUsd Extractor.usd_patterns (strip t) 0%Q w) as [H1 H2].
  destruct (scan_m LogUsd Extractor.usd_patterns (strip t) 0%Q w) as [u w1].
  simpl in H1, H2. subst u.
  destruct (ro_scan LogRiel Extractor.riel_patterns (strip t) 0%Q w1) as [H3 H4].
  destruct (scan_m LogRiel Extractor.riel_patterns (strip t) 0%Q w1) as [r w2].
  simpl in H3, H4. subst r.
  destruct (Qltb 0 _ || Qltb 0 _); simpl; split; try reflexivity; congruence.
Qed.

Lemma ro_logged_max (l : list Q) (mk : list Q -> Q -> log_entry) :
  reads_only (match l with
              | [] => ret 0%Q
              | _ => let u := Detector.max_or_zero l in
                     _ <- tell (mk l u) ;; ret u
              end) (fun _ => Detector.max_or_zero l).
Proof.
  destruct l as [|x xs]; [apply ro_ret|].
  eapply ro_ext; [apply ro_bind; [apply ro_tell | intros u; exact (ro_ret _)]|].
  reflexivity.
Qed.

Lemma ro_detector_call (t : text) :
  reads_only (detector_call t) (fun d => Detector.extract_amounts_self d t).
Proof.
  intros w. unfold detector_call, bind, get_self.
  destruct t as [|c t']; [split; reflexivity|].
  unfold Detector.extract_amounts_self.
  destruct (Detector.collect (Detector.usd_patterns_of (detector_obj w)) (strip (c :: t')))
    as [|x xs];
  destruct (Detector.collect (Detector.riel_patterns_of (detector_obj w)) (strip (c :: t')))
    as [|y ys]; split; reflexivity.
Qed.

Lemma reads_only_twice {X : Type} (m : M X) (f : Detector.currency_detector -> X) (w : world) :
  reads_only m f ->
  fst (m w) = fst (m (snd (m w))) /\ fst (m w) = f (detector_obj w) /\
  detector_obj (snd (m (snd (m w)))) = detector_obj w.
Proof.
  intros H. destruct (H w) as [H1 H2]. destruct (H (snd (m w))) as [H3 H4].
  rewrite H2 in H3, H4. rewrite H1, H3, H4. repeat split; reflexivity.
Qed.

End Purity.

(** ** Bounded checks *)

Lemma check_from_spec (n : nat) (x : Z) (f : Z -> bool) :
  check_from n x f = true -> forall y, (x <= y < x + Z.of_nat n)%Z -> f y = true.
Proof.
  revert x. induction n as [|k IH]; simpl; intros x H y Hy; [lia|].
  apply andb_prop in H as [H1 H2].
  destruct (Z.eq_dec y x) as [->|Hne]; [exact H1|].
  apply (IH (x + 1)%Z); [exact H2|lia].
Qed.

(** ** Floats *)

Lemma round_half_even_1 (n : Z) : PyFloat.round_half_even n 1 = n.
Proof.
  unfold PyFloat.round_half_even. rewrite Z.div_1_r, Z.mod_1_r. reflexivity.
Qed.

Lemma of_Q_integral (z : Z) :
  PyFloat.of_Q (inject_Z z) = PyFloat.Inf \/
  exists q z', PyFloat.of_Q (inject_Z z) = PyFloat.Fin q /\ (q == inject_Z z')%Q.
Proof.
  unfold PyFloat.of_Q. cbn [Qnum Qden inject_Z].
  destruct (z <=? 0)%Z; [right; exists 0%Q, 0%Z; split; reflexivity|].
  set (e := PyFloat.ulp_exponent z 1).
  destruct (0 <=? e)%Z eqn:He.
  - destruct (2 ^ 1024 <=? _)%Z; [left; reflexivity|].
    right. eexists _, _. split; [reflexivity|]. apply Qeq_refl.
  - apply Z.leb_gt in He.
    replace (Z.max 0 e) with 0%Z by lia. replace (Z.max 0 (- e)) with (- e)%Z by lia.
    rewrite Z.mul_1_l, Z.pow_0_r, round_half_even_1.
    right. eexists _, z. split; [reflexivity|].
    rewrite Qred_correct. unfold Qeq. cbn [Qnum Qden inject_Z].
    rewrite Z2Pos.id; [lia|]. apply Z.pow_pos_nonneg; lia.
Qed.

Lemma float_take_larger_fold (P : PyFloat.t -> Prop) (ws : list text) (acc : PyFloat.t) :
  P acc ->
  (forall w v, In w ws -> parse_float (remove_commas w) = Some v -> P (PyFloat.of_Q v)) ->
  P (fold_left FloatExtractor.take_larger ws acc).
Proof.
  revert acc. induction ws as [|w ws IH]; intros acc Hacc Hws; simpl; [exact Hacc|].
  apply IH; [|intros w' v Hw'; apply Hws; right; exact Hw'].
  unfold FloatExtractor.take_larger, PyFloat.py_float.
  destruct (parse_float (remove_commas w)) as [v|] eqn:E; simpl; [|exact Hacc].
  destruct (PyFloat.gtb _ acc); [|exact Hacc].
  apply (Hws w v); [left; reflexivity | exact E].
Qed.

Lemma float_scan (P : PyFloat.t -> Prop) (pats : list regex) (t : text) (acc : PyFloat.t) :
  P acc ->
  (forall v, In v (candidates pats t) -> P (PyFloat.of_Q v)) ->
  P (FloatExtractor.scan pats t acc).
Proof.
  unfold FloatExtractor.scan. revert acc.
  induction pats as [|p pats IH]; intros acc Hacc Hc; simpl; [exact Hacc|].
  apply IH.
  - apply float_take_larger_fold; [exact Hacc|].
    intros w v Hw Hv. apply Hc, in_candidates. exists p, w.
    split; [left; reflexivity|]. auto.
  - intros v Hv. apply Hc. simpl. apply in_or_app. right. exact Hv.
Qed.

Lemma float_collect_in (pats : list regex) (t : text) (x : PyFloat.t) :
  In x (FloatDetector.collect pats t) ->
  exists v, In v (candidates pats t) /\ x = PyFloat.of_Q v.
Proof.
  unfold FloatDetector.collect. intros Hx.
  apply in_flat_map in Hx as (p & Hp & Hx). apply in_flat_map in Hx as (w & Hw & Hx).
  unfold PyFloat.py_float in Hx.
  destruct (parse_float (remove_commas w)) as [v|] eqn:E; simpl in Hx; [|contradiction].
  destruct (PyFloat.gtb _ _); [|contradiction].
  destruct Hx as [<-|[]]. exists v. split; [|reflexivity].
  apply in_candidates. exists p, w. auto.
Qed.

Lemma float_py_max_in (x : PyFloat.t) (xs : list PyFloat.t) :
  In (FloatDetector.py_max x xs) (x :: xs).
Proof.
  unfold FloatDetector.py_max. revert x.
  induction xs as [|a xs IH]; intros x; simpl; [left; reflexivity|].
  destruct (PyFloat.gtb a x).
  - destruct (IH a) as [E|E]; [right; left; exact E | right; right; exact E].
  - destruct (IH x) as [E|E]; [left; exact E | right; right; exact E].
Qed.

Lemma float_detector_in (pats : list regex) (t : text) (P : PyFloat.t -> Prop) :
  P (PyFloat.Fin 0) ->
  (forall v, In v (candidates pats t) -> P (PyFloat.of_Q v)) ->
  P (FloatDetector.max_or_zero (FloatDetector.collect pats t)).
Proof.
  intros H0 Hc. unfold FloatDetector.max_or_zero.
  destruct (FloatDetector.collect pats t) as [|x xs] eqn:E; [exact H0|].
  pose proof (float_py_max_in x xs) as Hm. rewrite <- E in Hm.
  apply float_collect_in in Hm as (v & Hv & ->). apply Hc, Hv.
Qed.

(** * Claims *)

(** C1 (counterexample): no transaction form short-circuits the generic
    pass.  In ["$272.50 paid by SCB. Balance $1,000.00"] the pattern
    [\$(\d+(?:\.\d{2})?)\s+paid\s+by] matches [272.50], yet the USD
    component is [1000], the larger generic match. *)
Lemma transaction_form_does_not_win :
  findall (hd Eps Extractor.aba_usd_patterns)
    (strip (of_string "$272.50 paid by SCB. Balance $1,000.00"))
    = [of_string "272.50"] /\
  fst (Extractor.extract_amounts (of_string "$272.50 paid by SCB. Balance $1,000.00"))
    = 1000%Q /\
  ~ (fst (Extractor.extract_amounts (of_string "$272.50 paid by SCB. Balance $1,000.00"))
       == 545 # 2)%Q.
Proof.
  split; [vm_compute; reflexivity|]. split; [vm_compute; reflexivity|].
  vm_compute. discriminate.
Qed.

(** C1 (amended): a value captured by a transaction form (the ABA USD
    forms, or [Received <amount> KHR] for Riel) is one candidate among
    all: the component is at least that value, and equals it exactly when
    no candidate of any pattern is larger; each component is the largest
    candidate over all patterns of its currency, or [0] when there is
    none. *)
Theorem transaction_form_is_one_candidate (t : text) :
  (forall v, In v (candidates Extractor.aba_usd_patterns (strip t)) ->
     (v <= fst (Extractor.extract_amounts t))%Q /\
     ((fst (Extractor.extract_amounts t) == v)%Q <->
      forall v', In v' (candidates Extractor.usd_patterns (strip t)) -> (v' <= v)%Q)) /\
  (forall v, In v (candidates [last Extractor.riel_patterns Eps] (strip t)) ->
     (v <= snd (Extractor.extract_amounts t))%Q /\
     ((snd (Extractor.extract_amounts t) == v)%Q <->
      forall v', In v' (candidates Extractor.riel_patterns (strip t)) -> (v' <= v)%Q)) /\
  is_max0 (fst (Extractor.extract_amounts t)) (candidates Extractor.usd_patterns (strip t)) /\
  is_max0 (snd (Extractor.extract_amounts t)) (candidates Extractor.riel_patterns (strip t)).
Proof.
  assert (Gen : forall (sub pats : list regex) (u : Q),
            incl sub pats -> is_max0 u (candidates pats (strip t)) ->
            forall v, In v (candidates sub (strip t)) ->
              (v <= u)%Q /\
              ((u == v)%Q <-> forall v', In v' (candidates pats (strip t)) -> (v' <= v)%Q)).
  { intros sub pats u Hi (H0 & Hle & Hu) v Hv.
    pose proof (candidates_incl sub pats (strip t) v Hi Hv) as Hv'.
    split; [exact (Hle v Hv')|]. split.
    - intros E v' Hv''. rewrite <- E. exact (Hle v' Hv'').
    - intros Hall. apply Qle_antisym; [|exact (Hle v Hv')].
      destruct Hu as [Hu|Hu].
      + rewrite Hu. exact (candidates_nonneg _ _ _ Hv').
      + exact (Hall u Hu). }
  split; [|split].
  - apply Gen; [|apply extractor_usd_max].
    intros p Hp. unfold Extractor.usd_patterns. apply in_or_app. right.
    apply in_or_app. left. exact Hp.
  - apply Gen; [|apply extractor_riel_max].
    intros p [<-|[]]. simpl. do 8 right. left. reflexivity.
  - split; [apply extractor_usd_max|apply extractor_riel_max].
Qed.

Lemma transaction_form_is_one_candidate_witness :
  (545 # 2 <= fst (Extractor.extract_amounts (of_string "$272.50 paid by SCB")))%Q /\
  (110000 <= snd (Extractor.extract_amounts (of_string "Received 110,000 KHR")))%Q.
Proof.
  split.
  - refine (proj1 (proj1 (transaction_form_is_one_candidate
                             (of_string "$272.50 paid by SCB")) (545 # 2) _)).
    vm_compute. left. reflexivity.
  - refine (proj1 (proj1 (proj2 (transaction_form_is_one_candidate
                             (of_string "Received 110,000 KHR"))) 110000%Q _)).
    vm_compute. left. reflexivity.
Defined.

(** C2: each component is the maximum of [0] and of every parsed match of
    that currency's patterns, in both modules; on ["$50 and $100"] the
    candidates are [50; 100; 50; 100] and the USD component is [100]. *)
Theorem extract_amounts_takes_maximum (t : text) :
  is_max0 (fst (Extractor.extract_amounts t)) (candidates Extractor.usd_patterns (strip t)) /\
  is_max0 (snd (Extractor.extract_amounts t)) (candidates Extractor.riel_patterns (strip t)) /\
  is_max0 (fst (Detector.extract_amounts t)) (candidates Detector.usd_patterns (strip t)) /\
  is_max0 (snd (Detector.extract_amounts t)) (candidates Detector.riel_patterns (strip t)) /\
  candidates Extractor.usd_patterns (strip (of_string "$50 and $100")) = [50; 100; 50; 100]%Q /\
  Extractor.extract_amounts (of_string "$50 and $100") = (100%Q, 0%Q) /\
  Detector.extract_amounts (of_string "$50 and $100") = (100%Q, 0%Q).
Proof.
  split; [apply extractor_usd_max|]. split; [apply extractor_riel_max|].
  split; [apply detector_usd_max|]. split; [apply detector_riel_max|].
  repeat split; vm_compute; reflexivity.
Qed.

(** C3: for every text both modules return a pair of non-negative values;
    in [currency_extractor] a numeral that does not parse, or parses to a
    value not above the running amount (in particular zero), leaves the
    running amount unchanged, so the USD component is the result of the
    loop over the parseable numerals alone. *)
Theorem extract_amounts_total_nonneg (t : text) :
  (0 <= fst (Extractor.extract_amounts t))%Q /\
  (0 <= snd (Extractor.extract_amounts t))%Q /\
  (0 <= fst (Detector.extract_amounts t))%Q /\
  (0 <= snd (Detector.extract_amounts t))%Q /\
  fst (Extractor.extract_amounts t) =
    fold_left Extractor.take_larger
      (filter parses (flat_map (fun p => findall p (strip t)) Extractor.usd_patterns)) 0%Q /\
  snd (Extractor.extract_amounts t) =
    fold_left Extractor.take_larger
      (filter parses (flat_map (fun p => findall p (strip t)) Extractor.riel_patterns)) 0%Q /\
  (forall (acc : Q) (w : text), (0 <= acc)%Q ->
     (parse_float (remove_commas w) = None \/
      exists a, parse_float (remove_commas w) = Some a /\ (a <= 0)%Q) ->
     Extractor.take_larger acc w = acc).
Proof.
  destruct (extractor_usd_max t) as [H1 _].
  destruct (extractor_riel_max t) as [H2 _].
  destruct (detector_usd_max t) as [H3 _].
  destruct (detector_riel_max t) as [H4 _].
  repeat split; auto.
  - change (fst (Extractor.extract_amounts t))
      with (Extractor.scan Extractor.usd_patterns (strip t) 0%Q).
    rewrite scan_flat. apply take_larger_filter.
  - change (snd (Extractor.extract_amounts t))
      with (Extractor.scan Extractor.riel_patterns (strip t) 0%Q).
    rewrite scan_flat. apply take_larger_filter.
  - exact take_larger_discard.
Qed.

Lemma extract_amounts_total_nonneg_witness :
  Extractor.take_larger 0%Q (of_string "0") = 0%Q.
Proof.
  apply (extract_amounts_total_nonneg []); [apply Qle_refl|].
  right. exists 0%Q. split; [reflexivity | apply Qle_refl].
Defined.

(** C4: a text without any decimal digit (the empty text, blanks only, or
    currency words and symbols without digits) yields [(0, 0)] in both
    modules. *)
Theorem extract_amounts_without_digits (t : text) (H : has_digit t = false) :
  Extractor.extract_amounts t = (0%Q, 0%Q) /\ Detector.extract_amounts t = (0%Q, 0%Q).
Proof.
  destruct pattern_tables_need_digit as (H1 & H2 & H3 & H4). split.
  - unfold Extractor.extract_amounts. cbv zeta.
    rewrite (scan_all_nil Extractor.usd_patterns), (scan_all_nil Extractor.riel_patterns);
      [reflexivity | apply no_digit_all_nil; assumption | apply no_digit_all_nil; assumption].
  - unfold Detector.extract_amounts, Detector.extract_amounts_self.
    destruct t as [|c t']; [reflexivity|]. cbv zeta. simpl Detector.usd_patterns_of.
    simpl Detector.riel_patterns_of.
    rewrite (collect_all_nil Detector.usd_patterns), (collect_all_nil Detector.riel_patterns);
      [reflexivity | apply no_digit_all_nil; assumption | apply no_digit_all_nil; assumption].
Qed.

Lemma extract_amounts_without_digits_witness :
  has_digit (of_string " USD dollars $ riel KHR ") = false /\
  Extractor.extract_amounts (of_string " USD dollars $ riel KHR ") = (0%Q, 0%Q).
Proof.
  split; [reflexivity|].
  exact (proj1 (extract_amounts_without_digits (of_string " USD dollars $ riel KHR ")
                  eq_refl)).
Defined.

(** C5 (code bug): commas are removed and numerals parsed as decimals,
    but the Riel sign in [currency_extractor.py] is the mis-decoded
    [áŸ›], so the running bot returns [(0, 0)] on ["៛25,000"] and
    [(50, 0)] on ["$50 ៛10000"]; [currency_detector] returns the values the
    spec lists, and the extractor does parse [25,000] after its own
    three-character sign. *)
Theorem extractor_misses_riel_sign :
  Extractor.extract_amounts (of_string "$100") = (100%Q, 0%Q) /\
  Extractor.extract_amounts (0x17DB :: of_string "25,000") = (0%Q, 0%Q) /\
  Extractor.extract_amounts (of_string "$50 " ++ 0x17DB :: of_string "10000")
    = (50%Q, 0%Q) /\
  Extractor.extract_amounts ([0xE1; 0x178; 0x203A] ++ of_string "25,000")
    = (0%Q, 25000%Q) /\
  Detector.extract_amounts (of_string "$100") = (100%Q, 0%Q) /\
  Detector.extract_amounts (0x17DB :: of_string "25,000") = (0%Q, 25000%Q) /\
  Detector.extract_amounts (of_string "$50 " ++ 0x17DB :: of_string "10000")
    = (50%Q, 10000%Q).
Proof. repeat split; vm_compute; reflexivity. Qed.

(** C6 (code bug): in [currency_extractor] the text ["áŸ›500"] carries
    none of the Riel markers [៛], [KHR], [riel], yet its Riel component is
    [500]: the extractor's Riel sign is the mis-decoded [áŸ›]. *)
Theorem extractor_riel_without_riel_marker :
  has_marker riel_markers ([0xE1; 0x178; 0x203A] ++ of_string "500") = false /\
  Extractor.extract_amounts ([0xE1; 0x178; 0x203A] ++ of_string "500") = (0%Q, 500%Q).
Proof. split; vm_compute; reflexivity. Qed.

(** C7: a call reads no state besides the module-level detector object,
    which it never writes; two calls in a row on the same text return the
    same pair, whatever the log holds, in both modules. *)
Theorem extract_amounts_stateless (t : text) (w : Effects.world) :
  fst (Effects.extractor_call t w)
    = fst (Effects.extractor_call t (snd (Effects.extractor_call t w))) /\
  fst (Effects.extractor_call t w) = Extractor.extract_amounts t /\
  Effects.detector_obj (snd (Effects.extractor_call t (snd (Effects.extractor_call t w))))
    = Effects.detector_obj w /\
  fst (Effects.detector_call t w)
    = fst (Effects.detector_call t (snd (Effects.detector_call t w))) /\
  fst (Effects.detector_call t w)
    = Detector.extract_amounts_self (Effects.detector_obj w) t /\
  Effects.detector_obj (snd (Effects.detector_call t (snd (Effects.detector_call t w))))
    = Effects.detector_obj w.
Proof.
  destruct (reads_only_twice _ _ w (ro_extractor_call t)) as (H1 & H2 & H3).
  destruct (reads_only_twice _ _ w (ro_detector_call t)) as (H4 & H5 & H6).
  repeat split; assumption.
Qed.

(** C8 (counterexample): the week total is not taken from the start of
    the week.  On Monday 2026-10-12, 10:00 in Phnom Penh, a payment of
    [$5] dated Sunday 2026-10-11 is counted in the week total, while the
    week that started that Monday holds no payment. *)
Lemma week_total_not_from_week_start :
  let db := [{| Ledger.chat_id := 1; Ledger.usd_amount := 5;
                Ledger.riel_amount := 0; Ledger.payment_date := 20737 |}] in
  let now := (20738 * 86400 + 3 * 3600)%Z in
  Ledger.get_cambodia_date now = Ledger.start_of_week (Ledger.get_cambodia_date now) /\
  Ledger.get_totals db 1 Ledger.Week now = (5%Q, 0%Q) /\
  Ledger.week_sum_by_spec db 1 now = (0%Q, 0%Q).
Proof. repeat split; vm_compute; reflexivity. Qed.

(** C8 (amended): the week total of a chat sums exactly that chat's
    payments dated on or after the current date minus seven days, the
    date being taken in the fixed UTC+7 (Asia/Phnom_Penh) zone from the
    current UTC instant; two instants with the same Phnom Penh date give
    the same total. *)
Theorem week_total_rolling_window (db : list Ledger.payment) (chat now : Z) :
  Ledger.get_totals db chat Ledger.Week now =
    Ledger.sum_where db chat (fun d => (Ledger.get_cambodia_date now - 7 <=? d)%Z) /\
  Ledger.get_cambodia_date now = ((now + 7 * 3600) / 86400)%Z /\
  (forall now', Ledger.get_cambodia_date now' = Ledger.get_cambodia_date now ->
     Ledger.get_totals db chat Ledger.Week now' = Ledger.get_totals db chat Ledger.Week now).
Proof.
  split; [reflexivity|]. split; [reflexivity|].
  intros now' H. unfold Ledger.get_totals. rewrite H. reflexivity.
Qed.

Lemma week_total_rolling_window_witness :
  Ledger.get_totals [] 1 Ledger.Week 0 = Ledger.get_totals [] 1 Ledger.Week 3600.
Proof.
  apply (week_total_rolling_window [] 1 3600). reflexivity.
Defined.

(** C9 (counterexample): the Riel component need not be a whole number.
    A run of 309 nines is captured whole (exactly [10^309 - 1]), and
    [float()] turns it into [inf]: in [currency_extractor] through
    [999,999,...,999 KHR], in [currency_detector] through [99...9៛]. *)
Lemma riel_component_can_be_inf :
  snd (Extractor.extract_amounts
         (of_string "999" ++ concat (repeat (of_string ",999") 102) ++ of_string " KHR"))
    = inject_Z (10 ^ 309 - 1) /\
  snd (FloatExtractor.extract_amounts
         (of_string "999" ++ concat (repeat (of_string ",999") 102) ++ of_string " KHR"))
    = PyFloat.Inf /\
  snd (FloatDetector.extract_amounts (repeat 57 309 ++ [0x17DB])) = PyFloat.Inf.
Proof. split; [|split]; vm_compute; reflexivity. Qed.

(** C9 (amended): in both modules the Riel component is a whole number or
    [inf]: every Riel pattern captures digits and commas only, and the
    float nearest to a whole number is a whole number unless it
    overflows. *)
Theorem riel_component_whole_or_inf (t : text) :
  (snd (FloatExtractor.extract_amounts t) = PyFloat.Inf \/
   exists q z, snd (FloatExtractor.extract_amounts t) = PyFloat.Fin q /\ (q == inject_Z z)%Q) /\
  (snd (FloatDetector.extract_amounts t) = PyFloat.Inf \/
   exists q z, snd (FloatDetector.extract_amounts t) = PyFloat.Fin q /\ (q == inject_Z z)%Q).
Proof.
  set (P := fun x : PyFloat.t => x = PyFloat.Inf \/
              exists q z, x = PyFloat.Fin q /\ (q == inject_Z z)%Q).
  assert (P0 : P (PyFloat.Fin 0)) by (right; exists 0%Q, 0%Z; split; reflexivity).
  destruct riel_groups_digits_commas as [HE HD].
  split.
  - apply (float_scan P); [exact P0|].
    intros v Hv. destruct (riel_candidates_integral _ _ _ HE Hv) as [z ->].
    apply of_Q_integral.
  - destruct t as [|c t']; [exact P0|].
    apply (float_detector_in _ _ P); [exact P0|].
    intros v Hv. destruct (riel_candidates_integral _ _ _ HD Hv) as [z ->].
    apply of_Q_integral.
Qed.




(** * Further properties of the code *)

(** ** Calendar arithmetic behind [date.replace] *)

Section Calendar.
Local Open Scope Z_scope.

Lemma yoe_bounds (doe : Z) : 0 <= doe < 146097 ->
  let yoe := (doe - doe / 1460 + doe / 36524 - doe / 146096) / 365 in
  0 <= yoe < 400 /\ 0 <= doe - (365 * yoe + yoe / 4 - yoe / 100) <= 365.
Proof.
  intros H.
  assert (E : check_from (Z.to_nat 146097) 0 Ledger.doe_ok = true) by (vm_compute; reflexivity).
  pose proof (check_from_spec _ _ _ E doe ltac:(rewrite Z2Nat.id; lia)) as Hd.
  unfold Ledger.doe_ok in Hd. cbv zeta in *.
  repeat rewrite Bool.andb_true_iff in Hd. rewrite !Z.leb_le, !Z.ltb_lt in Hd. lia.
Qed.

Lemma month_bounds (doy : Z) : 0 <= doy <= 365 ->
  let mp := (5 * doy + 2) / 153 in
  0 <= mp <= 11 /\ 1 <= doy - (153 * mp + 2) / 5 + 1 <= 31.
Proof.
  intros H.
  assert (E : check_from 366 0 Ledger.doy_ok = true) by (vm_compute; reflexivity).
  pose proof (check_from_spec _ _ _ E doy ltac:(simpl; lia)) as Hd.
  unfold Ledger.doy_ok in Hd. cbv zeta in *. repeat rewrite Bool.andb_true_iff in Hd.
  rewrite !Z.leb_le in Hd. lia.
Qed.

Ltac split_ifs :=
  repeat match goal with
  | |- context [if ?b then _ else _] =>
      let E := fresh in destruct b eqn:E;
      try apply Z.ltb_lt in E; try apply Z.ltb_ge in E;
      try apply Z.leb_le in E; try apply Z.leb_gt in E
  end.

(** [civil_from_days] inverts [days_from_civil]. *)
Lemma civil_from_days_spec (z : Z) :
  let '(y, m, d) := Ledger.civil_from_days z in
  1 <= m <= 12 /\ 1 <= d <= 31 /\ Ledger.days_from_civil y m d = z.
Proof.
  unfold Ledger.civil_from_days.
  remember ((z + 719468) / 146097) as era eqn:Hera.
  remember (z + 719468 - era * 146097) as doe eqn:Hdoe.
  assert (Hd : 0 <= doe < 146097).
  { subst. pose proof (Z.mod_pos_bound (z + 719468) 146097 ltac:(lia)).
    rewrite Z.mod_eq in H by lia. lia. }
  destruct (yoe_bounds doe Hd) as [Hy Hdoy]. cbv zeta in Hy, Hdoy.
  remember ((doe - doe / 1460 + doe / 36524 - doe / 146096) / 365) as yoe eqn:Hyoe.
  remember (doe - (365 * yoe + yoe / 4 - yoe / 100)) as doy eqn:Hdoyd.
  destruct (month_bounds doy Hdoy) as [Hmp Hdd]. cbv zeta in Hmp, Hdd.
  remember ((5 * doy + 2) / 153) as mp eqn:Hmpd.
  unfold Ledger.days_from_civil.
  assert (Hmod : forall m, m = (if mp <? 10 then mp + 3 else mp - 9) -> (m + 9) mod 12 = mp).
  { intros m ->. destruct (Z.ltb_spec mp 10).
    - replace (mp + 3 + 9) with (mp + 1 * 12) by lia.
      rewrite Z.mod_add, Z.mod_small; lia.
    - replace (mp - 9 + 9) with mp by lia. rewrite Z.mod_small; lia. }
  rewrite (Hmod _ eq_refl).
  assert (Hy' : forall m, m = (if mp <? 10 then mp + 3 else mp - 9) ->
            (if m <=? 2 then yoe + era * 400 + (if m <=? 2 then 1 else 0) - 1
             else yoe + era * 400 + (if m <=? 2 then 1 else 0)) = yoe + era * 400).
  { intros m ->. split_ifs; lia. }
  rewrite (Hy' _ eq_refl).
  assert (Hq : (yoe + era * 400) / 400 = era).
  { rewrite Z.div_add by lia. rewrite Z.div_small by lia. lia. }
  rewrite Hq.
  replace (yoe + era * 400 - era * 400) with yoe by lia.
  split; [destruct (Z.ltb_spec mp 10); lia|]. split; [lia|]. lia.
Qed.

Lemma days_from_civil_day (y m d : Z) :
  Ledger.days_from_civil y m d = Ledger.days_from_civil y m 1 + (d - 1).
Proof. unfold Ledger.days_from_civil. cbv zeta. lia. Qed.

(** The day count as [365 y' + y'/4 - y'/100 + y'/400] plus the day of
    the March-based year. *)
Lemma days_from_civil_closed (y m d : Z) :
  let y' := if m <=? 2 then y - 1 else y in
  Ledger.days_from_civil y m d =
    365 * y' + y' / 4 - y' / 100 + y' / 400
    + (153 * ((m + 9) mod 12) + 2) / 5 + d - 1 - 719468.
Proof.
  cbv zeta. unfold Ledger.days_from_civil. cbv zeta.
  set (y' := if m <=? 2 then y - 1 else y).
  set (era := y' / 400).
  assert (Hy : y' = era * 400 + (y' - era * 400)) by lia.
  assert (Hb : 0 <= y' - era * 400 < 400).
  { unfold era. pose proof (Z.mod_pos_bound y' 400 ltac:(lia)).
    rewrite Z.mod_eq in H by lia. lia. }
  set (yoe := y' - era * 400) in *.
  assert (H4 : y' / 4 = era * 100 + yoe / 4).
  { rewrite Hy. replace (era * 400) with ((era * 100) * 4) by lia.
    rewrite Z.add_comm, Z.div_add by lia. lia. }
  assert (H100 : y' / 100 = era * 4 + yoe / 100).
  { rewrite Hy. replace (era * 400) with ((era * 4) * 100) by lia.
    rewrite Z.add_comm, Z.div_add by lia. lia. }
  rewrite H4, H100. fold era. lia.
Qed.

(** [date.replace(day=1)] is the first day of the same month, at most
    30 days earlier. *)
Lemma first_of_month_spec (z : Z) :
  let '(y, m, d) := Ledger.civil_from_days z in
  Ledger.first_of_month z = z - (d - 1) /\ 1 <= m <= 12 /\ 1 <= d <= 31.
Proof.
  pose proof (civil_from_days_spec z) as H.
  unfold Ledger.first_of_month.
  destruct (Ledger.civil_from_days z) as [[y m] d].
  destruct H as (Hm & Hd & Heq).
  rewrite days_from_civil_day in Heq. lia.
Qed.

Lemma first_of_year_le_month (z : Z) :
  Ledger.first_of_year z <= Ledger.first_of_month z.
Proof.
  pose proof (civil_from_days_spec z) as H.
  unfold Ledger.first_of_month, Ledger.first_of_year.
  destruct (Ledger.civil_from_days z) as [[y m] d].
  destruct H as (Hm & _ & _).
  rewrite (days_from_civil_closed y 1 1), (days_from_civil_closed y m 1). cbv zeta.
  change ((1 + 9) mod 12) with 10. change (1 <=? 2) with true. cbv beta iota.
  change ((153 * 10 + 2) / 5) with 306.
  assert (Hc : m = 1 \/ m = 2 \/ 3 <= m) by lia.
  destruct Hc as [->|[->|Hm3]].
  - apply Z.le_refl.
  - change ((2 + 9) mod 12) with 11. change (2 <=? 2) with true. cbv beta iota.
    change ((153 * 11 + 2) / 5) with 337. lia.
  - assert (E : (m <=? 2) = false) by (apply Z.leb_gt; lia). rewrite E.
    assert (Em : (m + 9) mod 12 = m - 3).
    { replace (m + 9) with ((m - 3) + 1 * 12) by lia.
      rewrite Z.mod_add, Z.mod_small; lia. }
    rewrite Em.
    assert (0 <= (153 * (m - 3) + 2) / 5) by (apply Z.div_pos; lia).
    assert (y / 4 >= (y - 1) / 4) by (apply Z.le_ge, Z.div_le_mono; lia).
    assert (y / 400 >= (y - 1) / 400) by (apply Z.le_ge, Z.div_le_mono; lia).
    assert (y / 100 <= (y - 1) / 100 + 1).
    { pose proof (Z.div_mod y 100 ltac:(lia)). pose proof (Z.mod_pos_bound y 100 ltac:(lia)).
      pose proof (Z.div_mod (y - 1) 100 ltac:(lia)).
      pose proof (Z.mod_pos_bound (y - 1) 100 ltac:(lia)). lia. }
    lia.
Qed.

Lemma period_start_le_today (z : Z) :
  Ledger.first_of_year z <= Ledger.first_of_month z /\ Ledger.first_of_month z <= z /\
  z - 30 <= Ledger.first_of_month z.
Proof.
  split; [apply first_of_year_le_month|].
  pose proof (first_of_month_spec z) as H.
  destruct (Ledger.civil_from_days z) as [[y m] d]. lia.
Qed.

End Calendar.

(** ** Sums over the [payments] table *)

Section Sums.

Local Abbreviation step chat cond :=
  (fun (acc : Q * Q) (p : Ledger.payment) =>
     if (Ledger.chat_id p =? chat)%Z && cond (Ledger.payment_date p)
     then (fst acc + Ledger.usd_amount p, snd acc + Ledger.riel_amount p)%Q
     else acc).



Lemma fold_step_filter (ps : list Ledger.payment) (chat : Z) (cond : Z -> bool) acc :
  fold_left (step chat cond) (filter (fun p => Ledger.chat_id p =? chat)%Z ps) acc =
  fold_left (step chat cond) ps acc.
Proof.
  revert acc. induction ps as [|p ps IH]; intros acc; [reflexivity|].
  simpl. destruct (Ledger.chat_id p =? chat)%Z eqn:E; simpl; rewrite ?E; simpl; apply IH.
Qed.

Lemma sum_where_filter (ps : list Ledger.payment) (chat : Z) (cond : Z -> bool) :
  Ledger.sum_where (filter (fun p => Ledger.chat_id p =? chat)%Z ps) chat cond =
  Ledger.sum_where ps chat cond.
Proof. apply fold_step_filter. Qed.

Lemma fold_step_mono (ps : list Ledger.payment) (chat : Z) (c1 c2 : Z -> bool) :
  Forall Ledger.nonneg_payment ps ->
  (forall d, c1 d = true -> c2 d = true) ->
  forall a1 b1 a2 b2, (a1 <= a2)%Q -> (b1 <= b2)%Q ->
  (fst (fold_left (step chat c1) ps (a1, b1)) <= fst (fold_left (step chat c2) ps (a2, b2)))%Q /\
  (snd (fold_left (step chat c1) ps (a1, b1)) <= snd (fold_left (step chat c2) ps (a2, b2)))%Q.
Proof.
  intros Hnn Hc. induction Hnn as [|p ps [Hu Hr] Hnn IH]; intros a1 b1 a2 b2 Ha Hb.
  - simpl. auto.
  - simpl. destruct (Ledger.chat_id p =? chat)%Z; simpl; [|apply IH; assumption].
    destruct (c1 (Ledger.payment_date p)) eqn:E1.
    + rewrite (Hc _ E1). simpl. apply IH.
      * apply Qplus_le_compat; [assumption|apply Qle_refl].
      * apply Qplus_le_compat; [assumption|apply Qle_refl].
    + destruct (c2 (Ledger.payment_date p)); simpl; apply IH.
      * rewrite <- (Qplus_0_r a1). apply Qplus_le_compat; assumption.
      * rewrite <- (Qplus_0_r b1). apply Qplus_le_compat; assumption.
      * assumption.
      * assumption.
Qed.

Lemma sum_where_mono (ps : list Ledger.payment) (chat : Z) (c1 c2 : Z -> bool) :
  Forall Ledger.nonneg_payment ps ->
  (forall d, c1 d = true -> c2 d = true) ->
  (fst (Ledger.sum_where ps chat c1) <= fst (Ledger.sum_where ps chat c2))%Q /\
  (snd (Ledger.sum_where ps chat c1) <= snd (Ledger.sum_where ps chat c2))%Q.
Proof.
  intros Hnn Hc. apply fold_step_mono; auto; apply Qle_refl.
Qed.

End Sums.

Lemma map_core_filter (tb : Store.table) (chat : Z) :
  map Store.core (filter (fun r => Ledger.chat_id (Store.core r) =? chat)%Z tb) =
  filter (fun p => Ledger.chat_id p =? chat)%Z (map Store.core tb).
Proof.
  induction tb as [|r tb IH]; [reflexivity|].
  simpl. destruct (Ledger.chat_id (Store.core r) =? chat)%Z; simpl; rewrite IH; reflexivity.
Qed.

Lemma ledger_totals_filter (ps : list Ledger.payment) (chat : Z) (p : Ledger.period) (now : Z) :
  Ledger.get_totals (filter (fun q => Ledger.chat_id q =? chat)%Z ps) chat p now =
  Ledger.get_totals ps chat p now.
Proof. destruct p; simpl; try apply sum_where_filter; reflexivity. Qed.


(** X1: the totals of a chat depend on the rows of that chat only. *)
Theorem totals_depend_only_on_chat_rows (tb1 tb2 : Store.table) (chat : Z)
    (p : Ledger.period) (now : Z)
    (H : filter (fun r => Ledger.chat_id (Store.core r) =? chat)%Z tb1 =
         filter (fun r => Ledger.chat_id (Store.core r) =? chat)%Z tb2) :
  Store.get_totals tb1 chat p now = Store.get_totals tb2 chat p now.
Proof.
  unfold Store.get_totals, Store.payments.
  rewrite <- (ledger_totals_filter (map Store.core tb1)), <- (ledger_totals_filter (map Store.core tb2)).
  rewrite <- !map_core_filter, H. reflexivity.
Qed.

(** X2: with non-negative amounts, today's total is at most the week's
    and the month's, and the month's at most the year's. *)
Theorem period_totals_nested (tb : Store.table) (chat now : Z)
    (Hnn : Forall (fun r => Ledger.nonneg_payment (Store.core r)) tb) :
  let t := Store.get_totals tb chat Ledger.Today now in
  let w := Store.get_totals tb chat Ledger.Week now in
  let m := Store.get_totals tb chat Ledger.Month now in
  let y := Store.get_totals tb chat Ledger.Year now in
  (fst t <= fst w /\ snd t <= snd w /\ fst t <= fst m /\ snd t <= snd m /\
   fst m <= fst y /\ snd m <= snd y)%Q.
Proof.
  assert (Hps : Forall Ledger.nonneg_payment (Store.payments tb)).
  { unfold Store.payments. apply Forall_map. exact Hnn. }
  cbv zeta. unfold Store.get_totals, Ledger.get_totals. cbv zeta.
  set (z := Ledger.get_cambodia_date now).
  pose proof (period_start_le_today z) as (Hym & Hmz & _).
  destruct (sum_where_mono (Store.payments tb) chat (fun d => d =? z)%Z
              (fun d => z - 7 <=? d)%Z Hps) as [A1 A2].
  { intros d Hd. apply Z.eqb_eq in Hd. apply Z.leb_le. lia. }
  destruct (sum_where_mono (Store.payments tb) chat (fun d => d =? z)%Z
              (fun d => Ledger.first_of_month z <=? d)%Z Hps) as [B1 B2].
  { intros d Hd. apply Z.eqb_eq in Hd. apply Z.leb_le. lia. }
  destruct (sum_where_mono (Store.payments tb) chat (fun d => Ledger.first_of_month z <=? d)%Z
              (fun d => Ledger.first_of_year z <=? d)%Z Hps) as [C1 C2].
  { intros d Hd. apply Z.leb_le in Hd. apply Z.leb_le. lia. }
  tauto.
Qed.

Lemma period_totals_nested_witness :
  let r := {| Store.user_id := 7; Store.username := of_string "a";
              Store.core := {| Ledger.chat_id := 1; Ledger.usd_amount := 5;
                               Ledger.riel_amount := 100; Ledger.payment_date := 20738 |};
              Store.chat_title := of_string "g"; Store.message_text := of_string "$5";
              Store.created_at := 0 |} in
  Forall (fun r => Ledger.nonneg_payment (Store.core r)) [r] /\
  (fst (Store.get_totals [r] 1 Ledger.Today (20738 * 86400)) <=
   fst (Store.get_totals [r] 1 Ledger.Week (20738 * 86400)))%Q.
Proof.
  cbv zeta. split.
  - repeat constructor; unfold Qle; simpl; lia.
  - refine (proj1 (period_totals_nested _ 1 (20738 * 86400) _)).
    repeat constructor; unfold Qle; simpl; lia.
Defined.

Lemma totals_depend_only_on_chat_rows_witness :
  let r (c : Z) := {| Store.user_id := 7; Store.username := of_string "a";
              Store.core := {| Ledger.chat_id := c; Ledger.usd_amount := 5;
                               Ledger.riel_amount := 0; Ledger.payment_date := 20738 |};
              Store.chat_title := of_string "g"; Store.message_text := of_string "$5";
              Store.created_at := 0 |} in
  Store.get_totals [r 1%Z] 1 Ledger.Month 0 = Store.get_totals [r 2%Z; r 1%Z; r 3%Z] 1 Ledger.Month 0.
Proof.
  cbv zeta. apply totals_depend_only_on_chat_rows. reflexivity.
Defined.

(** ** Recording a payment *)


Lemma add_payment_shape (tb tb' : Store.table) (uid : Z) (un : text) (chat : Z)
    (title msg : text) (u r : Q) (now : Z) :
  Store.add_payment tb uid un chat title msg u r now = Some tb' ->
  tb' = tb ++ [{| Store.user_id := uid; Store.username := un;
                  Store.core := {| Ledger.chat_id := chat;
                                   Ledger.usd_amount := Store.round_scale2 u;
                                   Ledger.riel_amount := Store.round_scale2 r;
                                   Ledger.payment_date := Ledger.get_cambodia_date now |};
                  Store.chat_title := title; Store.message_text := msg;
                  Store.created_at := now |}].
Proof.
  unfold Store.add_payment. destruct (_ && _); [|discriminate].
  intros H. injection H as <-. reflexivity.
Qed.





(** ** Column limits *)

(** An amount of [10 ^ (p - 2)] or more does not fit [DECIMAL(p, 2)]. *)
Lemma fits_numeric_large (p : Z) (q : Q) :
  (2 <= p)%Z -> (inject_Z (10 ^ (p - 2)) <= q)%Q -> Store.fits_numeric p q = false.
Proof.
  intros Hp Hq. unfold Store.fits_numeric, Store.scaled_abs. apply Z.ltb_ge.
  destruct q as [n d]. unfold Qle in Hq. simpl in Hq |- *.
  assert (Hpow : (10 ^ p = 10 ^ (p - 2) * 100)%Z).
  { replace p with ((p - 2) + 2)%Z at 1 by lia. rewrite Z.pow_add_r by lia. reflexivity. }
  assert (H0 : (0 < 10 ^ (p - 2))%Z) by (apply Z.pow_pos_nonneg; lia).
  assert (Hn : (0 <= n * 100)%Z) by nia.
  rewrite Z.abs_eq by exact Hn.
  apply Z.div_le_lower_bound; [lia|]. rewrite Hpow. nia.
Qed.

(** ** The [/add] command *)

Lemma Qltb_intro (x y : Q) : (x < y)%Q -> Qltb x y = true.
Proof.
  intros H. unfold Qltb. destruct (Qle_bool y x) eqn:E; [|reflexivity].
  apply Qle_bool_iff in E. exfalso. exact (Qlt_not_le _ _ H E).
Qed.

(** X4: [/add] with an extracted USD amount of 100,000,000 or more replies
    with its error text and records nothing: [usd_amount] is
    [DECIMAL(10,2)]. *)
Theorem add_command_rejects_large_usd (e : Bot.env) (uid chat : Z) (un title : text)
    (args : list text) (now : Z)
    (Hargs : args <> [])
    (Hbig : (inject_Z 100000000 <= fst (Extractor.extract_amounts (Bot.join_args args)))%Q) :
  Bot.add_payment_command e uid chat un title args now = ([Bot.AddFailed], Bot.table_of e).
Proof.
  unfold Bot.add_payment_command.
  destruct args as [|a args']; [congruence|].
  set (t := Bot.join_args (a :: args')) in *.
  destruct (Extractor.extract_amounts t) as [u r] eqn:Ex. simpl fst in Hbig.
  assert (Hpos : Qltb 0 u = true).
  { apply Qltb_intro. eapply Qlt_le_trans; [|exact Hbig]. reflexivity. }
  rewrite Hpos. simpl orb. cbv iota.
  assert (Hf : Store.fits_numeric 10 u = false).
  { apply fits_numeric_large; [lia|]. exact Hbig. }
  unfold Bot.add_payment, Store.add_payment. rewrite Hf.
  destruct (Bot.db_up e); rewrite ?andb_false_r; reflexivity.
Qed.

Lemma add_command_rejects_large_usd_witness :
  Bot.add_payment_command {| Bot.table_of := []; Bot.db_up := true |} 7 1
    (of_string "a") (of_string "g") [of_string "$100,000,000"] 0 = ([Bot.AddFailed], []).
Proof.
  apply (add_command_rejects_large_usd {| Bot.table_of := []; Bot.db_up := true |}).
  - discriminate.
  - vm_compute. discriminate.
Defined.



(** ** Stored amounts *)

Lemma scaled_abs_nonneg (q : Q) : (0 <= Store.scaled_abs q)%Z.
Proof.
  unfold Store.scaled_abs. apply Z.div_pos; [|lia].
  pose proof (Z.abs_nonneg (Qnum q * 100)). lia.
Qed.

Lemma round_scale2_nonneg (q : Q) : (0 <= q)%Q -> (0 <= Store.round_scale2 q)%Q.
Proof.
  intros H. pose proof (scaled_abs_nonneg q) as Hs.
  unfold Store.round_scale2. set (s := Store.scaled_abs q) in *.
  destruct q as [n d]. unfold Qle in *. simpl Qnum in *. simpl Qden in *.
  destruct n; simpl Z.sgn; lia.
Qed.

(** X6: the value stored in a [DECIMAL(p, 2)] column is the amount itself
    when it is a whole number of cents, keeps the amount's sign, and is
    never more than half a cent away from it. *)
Theorem stored_amount_rounded_to_cents (q : Q) :
  ((exists k, q == k # 100) -> Store.round_scale2 q == q)%Q /\
  ((0 <= q)%Q -> (0 <= Store.round_scale2 q)%Q) /\
  ((q <= 0)%Q -> (Store.round_scale2 q <= 0)%Q) /\
  (- (1 # 200) <= Store.round_scale2 q - q <= 1 # 200)%Q.
Proof.
  destruct q as [n d].
  unfold Store.round_scale2, Store.scaled_abs. simpl Qnum; simpl Qden.
  set (s := ((Z.abs (n * 100) * 2 + Z.pos d) / (2 * Z.pos d))%Z).
  assert (Hs : (2 * Z.pos d * s <= Z.abs (n * 100) * 2 + Z.pos d <
                2 * Z.pos d * s + 2 * Z.pos d)%Z).
  { pose proof (Z.div_mod (Z.abs (n * 100) * 2 + Z.pos d) (2 * Z.pos d) ltac:(lia)).
    pose proof (Z.mod_pos_bound (Z.abs (n * 100) * 2 + Z.pos d) (2 * Z.pos d) ltac:(lia)).
    fold s in H. lia. }
  rewrite Z.abs_mul in Hs. change (Z.abs 100) with 100%Z in Hs.
  assert (Hs0 : (0 <= s)%Z) by nia.
  clearbody s.
  split; [|split; [|split]].
  - intros [k Hk]. unfold Qeq in Hk |- *. cbn [Qnum Qden] in Hk |- *.
    assert (Hk' : (n * 100 = k * Z.pos d)%Z) by lia.
    assert (Hab : (Z.abs n * 100 = Z.abs k * Z.pos d)%Z).
    { replace (Z.abs n * 100)%Z with (Z.abs (n * 100)) by (rewrite Z.abs_mul; reflexivity).
      rewrite Hk', Z.abs_mul. reflexivity. }
    rewrite Hab in Hs.
    assert (Hsk : s = Z.abs k).
    { assert (s <= Z.abs k)%Z.
      { apply Z.nlt_ge. intros Hc.
        assert (Z.pos d * (Z.abs k + 1) <= Z.pos d * s)%Z by (apply Z.mul_le_mono_nonneg_l; lia).
            lia. }
      assert (Z.abs k <= s)%Z.
      { apply Z.nlt_ge. intros Hc.
        assert (Z.pos d * (s + 1) <= Z.pos d * Z.abs k)%Z by (apply Z.mul_le_mono_nonneg_l; lia).
        lia. }
      lia. }
    subst s. destruct n, k; simpl in *; nia.
  - intros H. unfold Qle in *. cbn [Qnum Qden] in *. destruct n; cbn [Z.sgn]; lia.
  - intros H. unfold Qle in *. cbn [Qnum Qden] in *. destruct n; cbn [Z.sgn]; lia.
  - unfold Qle, Qminus, Qplus, Qopp. cbn [Qnum Qden]. rewrite !Pos2Z.inj_mul.
    split; destruct n as [|p|p]; cbn [Z.sgn Z.abs] in *; try rewrite <- Pos2Z.opp_pos; nia.
Qed.

Lemma stored_amount_rounded_to_cents_witness :
  (Store.round_scale2 (2725 # 10) == 2725 # 10)%Q.
Proof.
  refine (proj1 (stored_amount_rounded_to_cents (2725 # 10)) _).
  exists 27250%Z. reflexivity.
Defined.

(** X7: the running bot only ever records non-negative amounts: [/add]
    turns a table whose rows have non-negative amounts into one whose rows
    still do, and so does the automatic detection of [handlers.py]. *)
Theorem recorded_amounts_stay_nonneg (e : Bot.env) (tb : Store.table) (uid chat : Z)
    (un title msg : text) (args : list text) (now : Z)
    (Hnn : Forall (fun r => Ledger.nonneg_payment (Store.core r)) (Bot.table_of e))
    (Hnn' : Forall (fun r => Ledger.nonneg_payment (Store.core r)) tb) :
  Forall (fun r => Ledger.nonneg_payment (Store.core r))
    (snd (Bot.add_payment_command e uid chat un title args now)) /\
  Forall (fun r => Ledger.nonneg_payment (Store.core r))
    (snd (AsyncHandlers.handle_message tb uid chat un title msg now)).
Proof.
  split.
  - unfold Bot.add_payment_command.
    destruct args as [|a args']; [exact Hnn|].
    set (t := Bot.join_args (a :: args')).
    destruct (extractor_usd_max t) as [Hu _]. destruct (extractor_riel_max t) as [Hr _].
    destruct (Extractor.extract_amounts t) as [u r] eqn:Ex. simpl in Hu, Hr.
    destruct (Qltb 0 u || Qltb 0 r); [|exact Hnn].
    unfold Bot.add_payment.
    destruct (Bot.db_up e); [|exact Hnn].
    destruct (Store.add_payment _ _ _ _ _ _ _ _ _) as [tb'|] eqn:Hadd; [|exact Hnn].
    apply add_payment_shape in Hadd. subst tb'.
    destruct (Bot.get_totals _ _ _ _). simpl.
    apply Forall_app. split; [exact Hnn|].
    constructor; [|constructor]. split; simpl; apply round_scale2_nonneg; assumption.
  - unfold AsyncHandlers.handle_message.
    destruct msg as [|c msg']; [exact Hnn'|].
    destruct (detector_usd_max (c :: msg')) as [Hu _].
    destruct (detector_riel_max (c :: msg')) as [Hr _].
    destruct (Detector.extract_amounts (c :: msg')) as [u r]. simpl in Hu, Hr.
    destruct (Qltb 0 u || Qltb 0 r); [|exact Hnn'].
    destruct (Store.add_payment _ _ _ _ _ _ _ _ _) as [tb'|] eqn:Hadd; [|exact Hnn'].
    apply add_payment_shape in Hadd. subst tb'. simpl.
    apply Forall_app. split; [exact Hnn'|].
    constructor; [|constructor]. split; simpl; apply round_scale2_nonneg; assumption.
Qed.

Lemma recorded_amounts_stay_nonneg_witness :
  Forall (fun r => Ledger.nonneg_payment (Store.core r))
    (snd (Bot.add_payment_command {| Bot.table_of := []; Bot.db_up := true |} 7 1
            (of_string "a") (of_string "g") [of_string "$5"] 0)).
Proof.
  refine (proj1 (recorded_amounts_stay_nonneg {| Bot.table_of := []; Bot.db_up := true |} []
                   7 1 (of_string "a") (of_string "g") (of_string "$5") [of_string "$5"] 0
                   ltac:(constructor) ltac:(constructor))).
Defined.

(** ** [get_stats] *)

Lemma filter_length_mono {A : Type} (f g : A -> bool) (l : list A) :
  (forall x, f x = true -> g x = true) ->
  (length (filter f l) <= length (filter g l))%nat.
Proof.
  intros H. induction l as [|x l IH]; simpl; [lia|].
  destruct (f x) eqn:E; [rewrite (H x E); simpl; lia|].
  destruct (g x); simpl; lia.
Qed.

(** X8: the number of payments [get_stats] reports for today never
    exceeds the chat's overall number, today's sums are the ones
    [get_totals] gives for the period ['today'], and when every amount is
    non-negative today's sums never exceed the chat's overall sums. *)
Theorem stats_today_within_total (tb : Store.table) (chat now : Z) :
  let s := Store.get_stats tb chat now in
  (0 <= Store.today_payments s <= Store.total_payments s)%Z /\
  (Store.today_usd s, Store.today_riel s) = Store.get_totals tb chat Ledger.Today now /\
  (Forall (fun r => Ledger.nonneg_payment (Store.core r)) tb ->
   (Store.today_usd s <= Store.total_usd s)%Q /\
   (Store.today_riel s <= Store.total_riel s)%Q).
Proof.
  cbv zeta. unfold Store.get_stats. cbv zeta. cbn [Store.today_payments Store.total_payments
    Store.today_usd Store.total_usd Store.today_riel Store.total_riel].
  set (z := Ledger.get_cambodia_date now).
  split; [|split].
  - unfold Store.count_where. split; [lia|]. apply Nat2Z.inj_le, filter_length_mono.
    intros p Hp. apply andb_true_iff in Hp as [Hp _]. rewrite Hp. reflexivity.
  - unfold Store.get_totals, Ledger.get_totals. fold z.
    destruct (Ledger.sum_where _ _ _); reflexivity.
  - intros Hnn.
    assert (Hps : Forall Ledger.nonneg_payment (Store.payments tb)).
    { unfold Store.payments. apply Forall_map. exact Hnn. }
    destruct (sum_where_mono (Store.payments tb) chat (fun d => d =? z)%Z (fun _ => true) Hps)
      as [A1 A2]; [reflexivity|].
    split; assumption.
Qed.

Lemma stats_today_within_total_witness :
  let r := {| Store.user_id := 7; Store.username := of_string "a";
              Store.core := {| Ledger.chat_id := 1; Ledger.usd_amount := 5;
                               Ledger.riel_amount := 100; Ledger.payment_date := 20737 |};
              Store.chat_title := of_string "g"; Store.message_text := of_string "$5";
              Store.created_at := 0 |} in
  Forall (fun r => Ledger.nonneg_payment (Store.core r)) [r] /\
  (Store.today_usd (Store.get_stats [r] 1 (20738 * 86400)) <=
   Store.total_usd (Store.get_stats [r] 1 (20738 * 86400)))%Q.
Proof.
  cbv zeta. split.
  - repeat constructor; unfold Qle; simpl; lia.
  - refine (proj1 (proj2 (proj2 (stats_today_within_total _ 1 (20738 * 86400))) _)).
    repeat constructor; unfold Qle; simpl; lia.
Defined.

(** ** Rows of an export *)

Lemma before_or_tied_total (a b : Store.row) :
  Store.before_or_tied a b = false -> Store.before_or_tied b a = true.
Proof.
  unfold Store.before_or_tied.
  destruct (Z.ltb_spec (Ledger.payment_date (Store.core b)) (Ledger.payment_date (Store.core a))),
           (Z.ltb_spec (Ledger.payment_date (Store.core a)) (Ledger.payment_date (Store.core b))),
           (Z.eqb_spec (Ledger.payment_date (Store.core a)) (Ledger.payment_date (Store.core b))),
           (Z.eqb_spec (Ledger.payment_date (Store.core b)) (Ledger.payment_date (Store.core a))),
           (Z.leb_spec (Store.created_at b) (Store.created_at a)),
           (Z.leb_spec (Store.created_at a) (Store.created_at b));
    simpl; intros Hf; try reflexivity; try discriminate; lia.
Qed.

Lemma insert_ordered_perm (r : Store.row) (rs : list Store.row) :
  Permutation (Store.insert_ordered r rs) (r :: rs).
Proof.
  induction rs as [|x rs IH]; simpl; [reflexivity|].
  destruct (Store.before_or_tied r x); [reflexivity|].
  eapply perm_trans; [apply perm_skip, IH|apply perm_swap].
Qed.

Lemma order_desc_perm (rs : list Store.row) : Permutation (Store.order_desc rs) rs.
Proof.
  induction rs as [|x rs IH]; simpl; [reflexivity|].
  eapply perm_trans; [apply insert_ordered_perm|apply perm_skip, IH].
Qed.

Lemma insert_ordered_sorted (r : Store.row) (rs : list Store.row) :
  Sorted (fun a b => Store.before_or_tied a b = true) rs ->
  Sorted (fun a b => Store.before_or_tied a b = true) (Store.insert_ordered r rs).
Proof.
  induction rs as [|x rs IH]; intros S; simpl.
  - repeat constructor.
  - destruct (Store.before_or_tied r x) eqn:E.
    + constructor; [exact S|constructor; exact E].
    + apply Sorted_inv in S as [S Hd]. constructor; [apply IH, S|].
      destruct rs as [|y rs']; simpl.
      * constructor. apply before_or_tied_total, E.
      * destruct (Store.before_or_tied r y); constructor.
        -- apply before_or_tied_total, E.
        -- apply HdRel_inv in Hd. exact Hd.
Qed.

Lemma order_desc_sorted (rs : list Store.row) :
  Sorted (fun a b => Store.before_or_tied a b = true) (Store.order_desc rs).
Proof.
  induction rs as [|x rs IH]; simpl; [constructor|]. apply insert_ordered_sorted, IH.
Qed.

Lemma export_selection_perm (tb : Store.table) (chat s e : Z) :
  Permutation (Store.get_payments_for_export tb chat (Some s) (Some e))
    (filter (fun r => (Ledger.chat_id (Store.core r) =? chat)%Z
                      && ((s <=? Ledger.payment_date (Store.core r))%Z
                          && (Ledger.payment_date (Store.core r) <=? e)%Z)) tb).
Proof.
  unfold Store.get_payments_for_export. rewrite order_desc_perm.
  erewrite filter_ext; [reflexivity|]. intros r. cbv beta. apply eq_sym, andb_assoc.
Qed.

(** X9: [get_payments_for_export] with both dates returns the rows of the
    chat dated within the two dates (bounds included), each exactly as
    often as in the table, in the order [payment_date DESC, created_at
    DESC]; without a start date it returns every row of the chat, in the
    same order. *)
Theorem export_rows_selected_and_ordered (tb : Store.table) (chat s e : Z) (end_date : option Z) :
  let rs := Store.get_payments_for_export tb chat (Some s) (Some e) in
  let rs_all := Store.get_payments_for_export tb chat None end_date in
  (forall r, In r rs <->
     In r tb /\ Ledger.chat_id (Store.core r) = chat /\
     (s <= Ledger.payment_date (Store.core r) <= e)%Z) /\
  Permutation rs
    (filter (fun r => (Ledger.chat_id (Store.core r) =? chat)%Z
                      && ((s <=? Ledger.payment_date (Store.core r))%Z
                          && (Ledger.payment_date (Store.core r) <=? e)%Z)) tb) /\
  Sorted (fun a b => Store.before_or_tied a b = true) rs /\
  Permutation rs_all (filter (fun r => Ledger.chat_id (Store.core r) =? chat)%Z tb) /\
  Sorted (fun a b => Store.before_or_tied a b = true) rs_all.
Proof.
  cbv zeta. split; [|split; [apply export_selection_perm|split; [|split]]].
  - intros r. split.
    + intros H. apply (Permutation_in _ (export_selection_perm tb chat s e)) in H.
      apply filter_In in H as [H1 H2].
      apply andb_true_iff in H2 as [H2 H3]. apply andb_true_iff in H3 as [H3 H4].
      apply Z.eqb_eq in H2. apply Z.leb_le in H3. apply Z.leb_le in H4. auto.
    + intros (H1 & H2 & H3 & H4).
      apply (Permutation_in _ (Permutation_sym (export_selection_perm tb chat s e))).
      apply filter_In. split; [exact H1|].
      rewrite H2, Z.eqb_refl. apply Z.leb_le in H3. apply Z.leb_le in H4.
      rewrite H3, H4. reflexivity.
  - apply order_desc_sorted.
  - apply order_desc_perm.
  - apply order_desc_sorted.
Qed.

(** ** The rows of an export file *)

Lemma fold_sum_shift {A : Type} (f : A -> Q) (l : list A) (a : Q) :
  (fold_left (fun acc x => acc + f x) l a == a + fold_left (fun acc x => acc + f x) l 0)%Q.
Proof.
  revert a. induction l as [|x l IH]; intros a; simpl; [ring|].
  rewrite (IH (a + f x)%Q), (IH (0 + f x)%Q). ring.
Qed.

Lemma fold_sum_perm {A : Type} (f : A -> Q) (l1 l2 : list A) :
  Permutation l1 l2 -> forall a,
  (fold_left (fun acc x => acc + f x) l1 a == fold_left (fun acc x => acc + f x) l2 a)%Q.
Proof.
  induction 1 as [|x l1 l2 _ IH|x y l|l1 l2 l3 _ IH1 _ IH2]; intros a; simpl.
  - reflexivity.
  - apply IH.
  - rewrite (fold_sum_shift f l (a + f y + f x)%Q), (fold_sum_shift f l (a + f x + f y)%Q).
    ring.
  - rewrite IH1. apply IH2.
Qed.

Lemma fold_sum_map {A B : Type} (f : B -> Q) (g : A -> B) (l : list A) (a : Q) :
  fold_left (fun acc x => acc + f (g x))%Q l a = fold_left (fun acc y => acc + f y)%Q (map g l) a.
Proof. revert a. induction l as [|x l IH]; intros a; simpl; [reflexivity|apply IH]. Qed.

Lemma filter_map_core (f : Ledger.payment -> bool) (tb : Store.table) :
  filter f (map Store.core tb) = map Store.core (filter (fun r => f (Store.core r)) tb).
Proof.
  induction tb as [|r tb IH]; simpl; [reflexivity|]. destruct (f (Store.core r)); simpl; rewrite IH; reflexivity.
Qed.

Lemma sum_where_as_filter (ps : list Ledger.payment) (chat : Z) (cond : Z -> bool) :
  let sel := fun p => ((Ledger.chat_id p =? chat)%Z && cond (Ledger.payment_date p))%bool in
  Ledger.sum_where ps chat cond =
  (fold_left (fun acc p => acc + Ledger.usd_amount p)%Q (filter sel ps) 0%Q,
   fold_left (fun acc p => acc + Ledger.riel_amount p)%Q (filter sel ps) 0%Q).
Proof.
  cbv zeta. unfold Ledger.sum_where.
  generalize 0%Q at 1 3. generalize 0%Q. intros b a. revert a b.
  induction ps as [|p ps IH]; intros a b; simpl; [reflexivity|].
  destruct ((Ledger.chat_id p =? chat)%Z && cond (Ledger.payment_date p)); simpl; apply IH.
Qed.

(** The rows of a chat selected by a date condition, in export order,
    add up (exactly) to the sums of the same [WHERE] clause, and their
    number is its count. *)
Lemma rows_of_selection (tb : Store.table) (chat : Z) (cond : Z -> bool) :
  let rs := filter (fun r => (Ledger.chat_id (Store.core r) =? chat)%Z
                             && cond (Ledger.payment_date (Store.core r))) tb in
  let S := Store.order_desc rs in
  (fold_left (fun a r => a + Ledger.usd_amount (Store.core r))%Q S 0%Q
     == fst (Ledger.sum_where (Store.payments tb) chat cond))%Q /\
  (fold_left (fun a r => a + Ledger.riel_amount (Store.core r))%Q S 0%Q
     == snd (Ledger.sum_where (Store.payments tb) chat cond))%Q /\
  Z.of_nat (length S) = Store.count_where (Store.payments tb) chat cond /\
  (rs = [] -> Ledger.sum_where (Store.payments tb) chat cond = (0%Q, 0%Q)).
Proof.
  cbv zeta. rewrite sum_where_as_filter. cbv zeta.
  unfold Store.payments, Store.count_where. rewrite filter_map_core.
  cbn [fst snd].
  rewrite <- !fold_sum_map.
  split; [|split; [|split]].
  - apply fold_sum_perm, order_desc_perm.
  - apply fold_sum_perm, order_desc_perm.
  - rewrite length_map, (Permutation_length (order_desc_perm _)). reflexivity.
  - intros E. rewrite E. reflexivity.
Qed.

Lemma text_eqb_eq (a b : text) : text_eqb a b = true -> a = b.
Proof.
  revert b. induction a as [|x a IH]; intros [|y b]; simpl; try discriminate; [reflexivity|].
  intros H. apply andb_true_iff in H as [H1 H2]. apply N.eqb_eq in H1. f_equal; auto.
Qed.




(** X11: an export for any other period (['all'], or a name [export_to_excel]
    does not know) writes every row of the chat, whatever its date, each
    as often as in the table: the Summary sheet's number of payments
    ([len(df)]) is the chat's overall count as [get_stats] reports it;
    when the export makes no file, either writing it failed or the chat
    has no row. *)
Theorem export_other_period_all_rows (isalnum : char -> bool) (tb : Store.table)
    (chat : Z) (title period : text) (now : Z) (write_ok : bool)
    (Hper : ~ In period [of_string "week"; of_string "month"; of_string "year"]) :
  let st := Store.get_stats tb chat now in
  match Store.export_to_excel isalnum tb chat title period now write_ok with
  | Some (_, rows) =>
      Permutation rows (filter (fun r => Ledger.chat_id (Store.core r) =? chat)%Z tb) /\
      Z.of_nat (length rows) = Store.total_payments st
  | None => write_ok = false \/ Store.total_payments st = 0%Z
  end.
Proof.
  cbv zeta.
  assert (Hst : Store.export_start period (Ledger.get_cambodia_date now) = None).
  { unfold Store.export_start.
    destruct (text_eqb period (of_string "week")) eqn:E1;
      [apply text_eqb_eq in E1; subst; exfalso; apply Hper; simpl; auto|].
    destruct (text_eqb period (of_string "month")) eqn:E2;
      [apply text_eqb_eq in E2; subst; exfalso; apply Hper; simpl; auto|].
    destruct (text_eqb period (of_string "year")) eqn:E3;
      [apply text_eqb_eq in E3; subst; exfalso; apply Hper; simpl; auto|].
    reflexivity. }
  unfold Store.export_to_excel. rewrite Hst. unfold Store.get_payments_for_export.
  destruct (rows_of_selection tb chat (fun _ => true)) as (_ & _ & S3 & _).
  cbv zeta in S3.
  assert (Hf : filter (fun r => (Ledger.chat_id (Store.core r) =? chat)%Z && true) tb
               = filter (fun r => Ledger.chat_id (Store.core r) =? chat)%Z tb)
    by (apply filter_ext; intros r; apply andb_true_r).
  rewrite (filter_ext _ (fun r => (Ledger.chat_id (Store.core r) =? chat)%Z && true))
    by (intros r; rewrite andb_true_r; reflexivity).
  rewrite Hf in S3 |- *.
  unfold Store.get_stats. cbn [Store.total_payments].
  destruct (filter _ tb) as [|r rs] eqn:E.
  - right. unfold Store.count_where, Store.payments. rewrite filter_map_core, length_map.
    rewrite (filter_ext _ (fun r => (Ledger.chat_id (Store.core r) =? chat)%Z))
      by (intros r; apply andb_true_r).
    rewrite E. reflexivity.
  - destruct (Store.order_desc (r :: rs)) as [|r' rs'] eqn:E'.
    + pose proof (Permutation_length (order_desc_perm (r :: rs))) as HL.
      rewrite E' in HL. discriminate.
    + destruct write_ok; [|left; reflexivity].
      split; [rewrite <- E'; apply order_desc_perm|exact S3].
Qed.

Lemma export_other_period_all_rows_witness :
  let r := {| Store.user_id := 7; Store.username := of_string "a";
              Store.core := {| Ledger.chat_id := 1; Ledger.usd_amount := 5;
                               Ledger.riel_amount := 100; Ledger.payment_date := 30000 |};
              Store.chat_title := of_string "g"; Store.message_text := of_string "$5";
              Store.created_at := 0 |} in
  let st := Store.get_stats [r] 1 (20738 * 86400) in
  match Store.export_to_excel (fun _ => true) [r] 1 (of_string "g") (of_string "all")
          (20738 * 86400) true with
  | Some (_, rows) =>
      Permutation rows (filter (fun r => Ledger.chat_id (Store.core r) =? 1)%Z [r]) /\
      Z.of_nat (length rows) = Store.total_payments st
  | None => true = false \/ Store.total_payments st = 0%Z
  end.
Proof.
  cbv zeta. apply export_other_period_all_rows.
  vm_compute. intros [H|[H|[H|[]]]]; discriminate.
Defined.

(** ** The name of the exported file *)

Section FileName.

Local Abbreviation no_separator t := (Forall (fun c => c <> 47 /\ c <> 92) t).

Lemma no_separator_check (t : text) :
  forallb (fun c => negb (c =? 47) && negb (c =? 92)) t = true -> no_separator t.
Proof.
  intros H. apply Forall_forall. intros c Hc.
  rewrite forallb_forall in H. specialize (H c Hc).
  apply andb_true_iff in H as [H1 H2]. apply negb_true_iff, N.eqb_neq in H1.
  apply negb_true_iff, N.eqb_neq in H2. auto.
Qed.

Lemma digits_rev_digits (fuel : nat) (n : Z) :
  Forall (fun c => 48 <= c <= 57) (Store.digits_rev fuel n).
Proof.
  revert n. induction fuel as [|f IH]; intros n; cbn [Store.digits_rev]; [constructor|].
  constructor.
  - pose proof (Z.mod_pos_bound n 10 ltac:(lia)).
    assert (Z.to_N (n mod 10) <= 9) by (change 9 with (Z.to_N 9%Z); apply Z2N.inj_le; lia).
    lia.
  - destruct (n <? 10)%Z; [constructor|apply IH].
Qed.

Lemma pad_no_separator (w : nat) (n : Z) : no_separator (Store.pad w n).
Proof.
  unfold Store.pad. apply Forall_app. split.
  - apply Forall_forall. intros c Hc. apply repeat_spec in Hc. subst c. split; discriminate.
  - apply Forall_rev. eapply Forall_impl; [|apply digits_rev_digits].
    intros c Hc. cbv beta in Hc. split; intros ->; lia.
Qed.

Lemma timestamp_no_separator (now : Z) : no_separator (Store.cambodia_timestamp now).
Proof.
  unfold Store.cambodia_timestamp.
  destruct (Ledger.civil_from_days _) as [[y m] d].
  do 3 (apply Forall_app; split; [apply pad_no_separator|]).
  apply Forall_app; split; [apply no_separator_check; reflexivity|].
  do 2 (apply Forall_app; split; [apply pad_no_separator|]).
  apply pad_no_separator.
Qed.

Lemma safe_title_no_separator (isalnum : char -> bool) (title : text) :
  isalnum 47 = false -> isalnum 92 = false ->
  no_separator (Store.safe_title isalnum title).
Proof.
  intros H47 H92. unfold Store.safe_title.
  set (kept := filter _ title).
  assert (Hk : no_separator kept).
  { apply Forall_forall. intros c Hc. apply filter_In in Hc as [_ Hc].
    split; intros ->; [rewrite H47 in Hc|rewrite H92 in Hc]; discriminate. }
  destruct (strip_infix kept) as (a & b & E). rewrite E in Hk.
  apply Forall_app in Hk as [_ Hk]. apply Forall_app in Hk as [Hk _]. exact Hk.
Qed.

Lemma export_period_known (lower : text -> text) (args : list text) :
  In (Bot.export_period lower args) Bot.export_periods.
Proof.
  unfold Bot.export_period. destruct args as [|a args]; [simpl; auto|].
  destruct (existsb _ _) eqn:E; [|simpl; auto].
  apply existsb_exists in E as (x & Hx & Ex). apply text_eqb_eq in Ex. rewrite Ex. exact Hx.
Qed.

(** X12: the file [export_excel] sends is named [payments_<...>.xlsx], and
    its name contains neither [/] nor [\], whatever the chat title and the
    arguments, as long as [str.isalnum] holds for neither of the two
    (it holds for neither in Python): the title is filtered, the period is
    one of [week], [month], [year], [all], and the timestamp has digits
    and [_] only. *)
Theorem export_filename_safe (isalnum : char -> bool) (lower : text -> text) (e : Bot.env)
    (chat : Z) (title : text) (args : list text) (now : Z) (write_ok : bool) (fn : text)
    (H47 : isalnum 47 = false) (H92 : isalnum 92 = false)
    (Hfn : In (Bot.ExportDocument fn)
              (Bot.export_excel isalnum lower e chat title args now write_ok)) :
  (exists mid, fn = of_string "payments_" ++ mid ++ of_string ".xlsx") /\
  ~ In 47 fn /\ ~ In 92 fn.
Proof.
  unfold Bot.export_excel, Bot.export_payments in Hfn.
  pose proof (export_period_known lower args) as Hper.
  set (period := Bot.export_period lower args) in *.
  destruct (Bot.db_up e); [|cbn [option_map In] in Hfn; intuition discriminate].
  unfold Store.export_to_excel in Hfn.
  destruct (Store.get_payments_for_export _ _ _ _) as [|r rs];
    [cbn [option_map In] in Hfn; intuition discriminate|].
  destruct write_ok; [|cbn [option_map In] in Hfn; intuition discriminate].
  cbn [option_map fst In] in Hfn. destruct Hfn as [H|[H|[]]]; [discriminate|]. injection H as <-.
  assert (Hp : no_separator period).
  { apply no_separator_check.
    destruct Hper as [<-|[<-|[<-|[<-|[]]]]]; reflexivity. }
  assert (Hall : no_separator
            (of_string "payments_" ++ Store.safe_title isalnum title ++ of_string "_" ++ period
             ++ of_string "_" ++ Store.cambodia_timestamp now ++ of_string ".xlsx")).
  { apply Forall_app; split; [apply no_separator_check; reflexivity|].
    apply Forall_app; split; [apply safe_title_no_separator; assumption|].
    apply Forall_app; split; [apply no_separator_check; reflexivity|].
    apply Forall_app; split; [exact Hp|].
    apply Forall_app; split; [apply no_separator_check; reflexivity|].
    apply Forall_app; split; [apply timestamp_no_separator|].
    apply no_separator_check; reflexivity. }
  split; [|split].
  - exists (Store.safe_title isalnum title ++ of_string "_" ++ period ++ of_string "_"
            ++ Store.cambodia_timestamp now).
    rewrite <- !app_assoc. reflexivity.
  - intros Hin. rewrite Forall_forall in Hall. exact (proj1 (Hall 47 Hin) eq_refl).
  - intros Hin. rewrite Forall_forall in Hall. exact (proj2 (Hall 92 Hin) eq_refl).
Qed.

End FileName.

Lemma export_filename_safe_witness :
  ~ In 47 (of_string "payments_" ++
           Store.safe_title (fun c => (97 <=? c) && (c <=? 122)) (of_string "a/b")
           ++ of_string "_month_" ++ Store.cambodia_timestamp (20738 * 86400)
           ++ of_string ".xlsx").
Proof.
  refine (proj1 (proj2 (export_filename_safe (fun c => (97 <=? c) && (c <=? 122)) (fun t => t)
            {| Bot.table_of :=
                 [{| Store.user_id := 7; Store.username := of_string "a";
                     Store.core := {| Ledger.chat_id := 1; Ledger.usd_amount := 5;
                                      Ledger.riel_amount := 100;
                                      Ledger.payment_date := 20738 |};
                     Store.chat_title := of_string "a/b";
                     Store.message_text := of_string "$5"; Store.created_at := 0 |}];
               Bot.db_up := true |}
            1 (of_string "a/b") [] (20738 * 86400) true _ _ _ _))).
  - vm_compute. reflexivity.
  - vm_compute. reflexivity.
  - vm_compute. right. left. reflexivity.
Defined.

(** ** [handlers.py] *)


(** ** [main.py] *)

(** X14: [main()] does nothing unless [BOT_TOKEN] and [DATABASE_URL] are
    both non-empty; otherwise it tries [PaymentDatabase()] until it
    succeeds, at most three times, sleeping between two attempts; it
    starts the full bot exactly when an attempt succeeds, falls back to
    the emergency bot exactly when no attempt succeeds or the full bot
    fails, and raises at the end exactly when the emergency bot fails as
    well. *)
Theorem main_startup_sequence (bot_token database_url : option text) (db_ok : nat -> bool)
    (full_ok emergency_ok : bool) :
  let ev := Main.main bot_token database_url db_ok full_ok emergency_ok in
  let attempts := if db_ok 0%nat then 1%nat else if db_ok 1%nat then 2%nat else 3%nat in
  let connected := db_ok 0%nat || db_ok 1%nat || db_ok 2%nat in
  (Main.truthy bot_token && Main.truthy database_url = false -> ev = []) /\
  (Main.truthy bot_token && Main.truthy database_url = true ->
   length (filter (fun x => match x with Main.DbAttempt => true | _ => false end) ev)
     = attempts /\
   length (filter (fun x => match x with Main.Sleep2 => true | _ => false end) ev)
     = (attempts - 1)%nat /\
   (In Main.StartFull ev <-> connected = true) /\
   (In Main.StartEmergency ev <-> connected && full_ok = false) /\
   (In Main.CompleteFailure ev <-> connected && full_ok = false /\ emergency_ok = false)).
Proof.
  cbv zeta. unfold Main.main.
  destruct (Main.truthy bot_token), (Main.truthy database_url); simpl;
    try (split; [reflexivity|discriminate]).
  split; [discriminate|intros _].
  destruct (db_ok 0%nat), (db_ok 1%nat), (db_ok 2%nat), full_ok, emergency_ok; simpl;
    intuition discriminate.
Qed.

(** ** [PaymentDatabase.connect] *)

(** X15: a [DATABASE_URL] with the scheme [postgres://] is handed to
    [psycopg2.connect] with the scheme [postgresql://] and the rest of the
    URL unchanged; a [postgresql://] URL is handed over as it is. *)
Theorem connect_url_scheme (rest : text) :
  Connect.primary (Some (of_string "postgres://" ++ rest)) =
    Some (Connect.Dsn (of_string "postgresql://" ++ rest)) /\
  Connect.primary (Some (of_string "postgresql://" ++ rest)) =
    Some (Connect.Dsn (of_string "postgresql://" ++ rest)).
Proof. split; reflexivity. Qed.

